(** * export_price_predictor.py: the TunisianExportPredictor network and its export script

    A shallow embedding of
    [src/main/java/tn/sesame/economics/model/export_price_predictor.py].

    The script itself is forty lines; everything it does goes through the
    tensor library.  The library operations it calls ([nn.Linear], [nn.ReLU],
    [nn.Dropout], [state_dict], [torch.save], [torch.jit.trace], ...) are
    modelled here by small executable definitions that follow the library's
    documented behaviour on CPU tensors of the default dtype (binary32).
    The definitions that embed the script's own code keep its names:
    [TunisianExportPredictor], [__init__], [forward], [main]. *)

From Stdlib Require Import ZArith QArith List String Bool Lia.
From Stdlib Require Import Floats.SpecFloat DecimalString Zpower.
From stdpp Require Import base option list strings gmap.

Local Open Scope Z_scope.

(* ===================================================================== *)
(** ** binary32 scalars *)
(* ===================================================================== *)

(** The default tensor dtype is [torch.float32].  Scalars are IEEE-754
    binary32 values, given by the Standard Library's executable
    specification of floating-point arithmetic (round to nearest, ties to
    even) at precision 24 and maximal exponent 128. *)
Module F32.

Definition prec : Z := 24.
Definition emax : Z := 128.

Definition t : Type := spec_float.

Definition zero : t := S754_zero false.
Definition one : t := S754_finite false 8388608 (-23).

Definition add : t -> t -> t := SFadd prec emax.
Definition mul : t -> t -> t := SFmul prec emax.
Definition sub : t -> t -> t := SFsub prec emax.
Definition div : t -> t -> t := SFdiv prec emax.
Definition sqrt : t -> t := SFsqrt prec emax.
Definition opp : t -> t := SFopp.
Definition abs : t -> t := SFabs.
Definition ltb : t -> t -> bool := SFltb.
Definition leb : t -> t -> bool := SFleb.
Definition valid : t -> bool := valid_binary prec emax.

Definition of_Z (z : Z) : t := binary_normalize prec emax z 0 false.

(** A rational constant, rounded once (the quotient of two exactly
    represented integers is correctly rounded). *)
Definition of_Q (q : Q) : t := div (of_Z (Qnum q)) (of_Z (Zpos (Qden q))).

Definition is_nan (x : t) : bool :=
  match x with S754_nan => true | _ => false end.

(** [torch.isfinite]: neither NaN nor an infinity. *)
Definition is_finite (x : t) : bool :=
  match x with
  | S754_zero _ | S754_finite _ _ _ => true
  | S754_infinity _ | S754_nan => false
  end.

Definition eq_dec (x y : t) : {x = y} + {x <> y}.
Proof.
  decide equality; try apply Bool.bool_dec.
  - apply Z.eq_dec.
  - apply Pos.eq_dec.
Defined.

End F32.

(** A binary32 value that is a zero, or finite with a mantissa of at
    most 24 digits and an exponent of at most [k]; its magnitude is below
    [2 ^ (k + 24)]. *)
Definition small (k : Z) (x : spec_float) : Prop :=
  match x with
  | S754_zero _ => True
  | S754_finite _ m e => Zpos (digits2_pos m) <= 24 /\ e <= k
  | S754_infinity _ | S754_nan => False
  end.

(** A one-dimensional tensor and a two-dimensional tensor (row major). *)
Definition vector : Type := list F32.t.
Definition matrix : Type := list (list F32.t).

(** [t.shape == (r, c)] for a two-dimensional tensor. *)
Definition has_shape (r c : nat) (t : matrix) : Prop :=
  length t = r /\ Forall (fun row => length row = c) t.

Definition has_shapeb (r c : nat) (t : matrix) : bool :=
  Nat.eqb (length t) r && forallb (fun row => Nat.eqb (length row) c) t.

(** [torch.zeros(r, c)]. *)
Definition zeros (r c : nat) : matrix := repeat (repeat F32.zero c) r.

(** [torch.isclose(a, b)] with the default tolerances:
    [|a - b| <= atol + rtol * |b|], [rtol = 1e-05], [atol = 1e-08]. *)
Definition isclose (a b : F32.t) : bool :=
  F32.leb (F32.abs (F32.sub a b))
          (F32.add (F32.of_Q (1 # 100000000))
                   (F32.mul (F32.of_Q (1 # 100000)) (F32.abs b))).

Fixpoint allclose1 (a b : vector) : bool :=
  match a, b with
  | [], [] => true
  | x :: a', y :: b' => isclose x y && allclose1 a' b'
  | _, _ => false
  end.

(** [torch.allclose(a, b)] on two tensors of the same shape. *)
Fixpoint allclose (a b : matrix) : bool :=
  match a, b with
  | [], [] => true
  | r :: a', s :: b' => allclose1 r s && allclose a' b'
  | _, _ => false
  end.

(** [t.numel()]. *)
Definition numel1 (v : vector) : nat := length v.
Definition numel2 (t : matrix) : nat := list_sum (map (@length F32.t) t).

(* ===================================================================== *)
(** ** Exceptions and results *)
(* ===================================================================== *)

(** The exceptions the library raises on the paths the script reaches. *)
Inductive Exception : Type :=
| RuntimeError (msg : string)   (* shape mismatch, bad state_dict, ... *)
| ValueError (msg : string)     (* dropout probability out of range *)
| OSError (path : string)       (* the file cannot be written or read *)
| NameError (name : string)     (* a variable is read before it is bound *).

Inductive Result (A : Type) : Type :=
| Ok (a : A)
| Raise (e : Exception).
Arguments Ok {A} a.
Arguments Raise {A} e.

Definition is_ok {A} (r : Result A) : bool :=
  match r with Ok _ => true | Raise _ => false end.

(* ===================================================================== *)
(** ** The random number generator *)
(* ===================================================================== *)

(** The script never seeds the library's global generator, and the
    generator's algorithm is not part of the repository.  It is taken as a
    parameter: a state type [G] with the three samplers the script reaches.
    Each sampler returns a value together with the advanced state. *)
Class RandomSource (G : Type) : Type := {
  (** [Tensor.uniform_(lo, hi)], one element. *)
  uniform_ : F32.t -> F32.t -> G -> F32.t * G;
  (** [torch.randn], one element. *)
  normal_ : G -> F32.t * G;
  (** [Tensor.bernoulli_(q)], one element: [true] with probability [q]. *)
  bernoulli_ : Q -> G -> bool * G;
  (** A uniform sample is a binary32 value inside the requested range. *)
  uniform_range : forall lo hi g,
    F32.valid lo = true -> F32.valid hi = true -> F32.leb lo hi = true ->
    F32.valid (fst (uniform_ lo hi g)) = true /\
    F32.leb lo (fst (uniform_ lo hi g)) = true /\
    F32.leb (fst (uniform_ lo hi g)) hi = true
}.

(** A concrete generator, used to run the definitions: the state is a
    counter; uniform samples cycle through the lower end of the range and
    twice the upper end, normal samples cycle through -1, 0, 1, and a
    Bernoulli sample compares the next of 0, 1/5, 2/5, 3/5, 4/5 with the
    requested probability. *)
Module CounterGen.

Definition uniform (lo hi : F32.t) (g : nat) : F32.t * nat :=
  (if Nat.eqb (g mod 3) 0 then lo else hi, S g).

Definition normal (g : nat) : F32.t * nat :=
  (F32.of_Z (Z.of_nat (g mod 3) - 1), S g).

Definition bernoulli (q : Q) (g : nat) : bool * nat :=
  (negb (Qle_bool q (Z.of_nat (g mod 5) # 5)), S g).

Lemma compare_refl (x : F32.t) :
  F32.is_nan x = false -> SFcompare x x = Some Eq.
Proof.
  destruct x as [s|s| |s m e]; simpl; try discriminate; intros _.
  - reflexivity.
  - destruct s; reflexivity.
  - rewrite Z.compare_refl, Pos.compare_cont_refl. destruct s; reflexivity.
Qed.

Lemma leb_refl (x y : F32.t) : F32.leb x y = true -> F32.leb x x = true /\ F32.leb y y = true.
Proof.
  unfold F32.leb, SFleb. intros Hxy.
  assert (F32.is_nan x = false /\ F32.is_nan y = false) as [Hx Hy].
  { destruct x, y; simpl in *; try discriminate; auto. }
  rewrite (compare_refl x Hx), (compare_refl y Hy). auto.
Qed.

#[global] Program Instance random_source : RandomSource nat := {|
  uniform_ := uniform;
  normal_ := normal;
  bernoulli_ := bernoulli
|}.
Next Obligation.
  intros lo hi g Hlo Hhi Hle. unfold uniform. cbn [fst].
  destruct (leb_refl lo hi Hle) as [Hl Hh].
  destruct (Nat.eqb (g mod 3) 0); auto.
Qed.

End CounterGen.

(* ===================================================================== *)
(** ** Serialised objects, traced graphs and the world *)
(* ===================================================================== *)

(** A tensor of one or two dimensions, as stored in a [state_dict]. *)
Inductive Tensor : Type :=
| Tensor1 (v : vector)
| Tensor2 (m : matrix).

Definition numel (t : Tensor) : nat :=
  match t with
  | Tensor1 v => numel1 v
  | Tensor2 m => numel2 m
  end.

(** [collections.OrderedDict] from parameter name to tensor. *)
Definition OrderedDict : Type := list (string * Tensor).

(** One recorded operator of a traced graph.  The tracer stores the
    tensors and the Python values an operator was called with as
    constants of the node: the parameters of a linear layer, the
    probability and the training flag of a dropout. *)
Inductive Node : Type :=
| aten_linear (weight : matrix) (bias : vector)
| aten_relu
| aten_dropout (p : Q) (train : bool).

Definition Graph : Type := list Node.

#[global] Instance F32_eq_dec : EqDecision F32.t := F32.eq_dec.
#[global] Instance Q_eq_dec : EqDecision Q.
Proof. solve_decision. Defined.
#[global] Instance Node_eq_dec : EqDecision Node.
Proof. solve_decision. Defined.

(** What a file written by the library holds. *)
Inductive File : Type :=
| PickledStateDict (sd : OrderedDict)
| ScriptModuleArchive (g : Graph).

(* ===================================================================== *)
(** ** Module objects *)
(* ===================================================================== *)

(** [nn.Linear]: [weight] has shape [(out_features, in_features)] and
    [bias] has shape [(out_features,)]. *)
Module Linear.
Record t : Type := mk {
  in_features : nat;
  out_features : nat;
  weight : matrix;
  bias : vector;
  training : bool
}.
Definition train (mode : bool) (self : t) : t :=
  mk (in_features self) (out_features self) (weight self) (bias self) mode.
End Linear.

(** [nn.ReLU] *)
Module ReLU.
Record t : Type := mk { inplace : bool; training : bool }.
Definition train (mode : bool) (self : t) : t := mk (inplace self) mode.
End ReLU.

(** [nn.Dropout] *)
Module Dropout.
Record t : Type := mk { p : Q; inplace : bool; training : bool }.
Definition train (mode : bool) (self : t) : t := mk (p self) (inplace self) mode.
End Dropout.

(** [class TunisianExportPredictor(nn.Module)]: the attributes set by
    [__init__], and the [training] flag every [nn.Module] carries. *)
Record TunisianExportPredictor : Type := mkPredictor {
  fc1 : Linear.t;
  fc2 : Linear.t;
  fc3 : Linear.t;
  relu : ReLU.t;
  dropout : Dropout.t;
  training : bool
}.

(** [nn.Module.train(mode)]: sets the flag on the module and on every
    child module. *)
Definition train (mode : bool) (self : TunisianExportPredictor)
  : TunisianExportPredictor :=
  mkPredictor (Linear.train mode (fc1 self)) (Linear.train mode (fc2 self))
              (Linear.train mode (fc3 self)) (ReLU.train mode (relu self))
              (Dropout.train mode (dropout self)) mode.

(** [nn.Module.eval()] is [train(False)]. *)
Definition eval (self : TunisianExportPredictor) : TunisianExportPredictor :=
  train false self.

(** [Tensor.shape] *)
Definition shape (t : Tensor) : list nat :=
  match t with
  | Tensor1 v => [length v]
  | Tensor2 m => [length m; length (hd [] m)]
  end.

(** [nn.Module.named_parameters()] / [state_dict()] of a linear layer,
    under the attribute name it is registered with. *)
Definition Linear_state_dict (prefix : string) (l : Linear.t) : OrderedDict :=
  [ (prefix +:+ "weight", Tensor2 (Linear.weight l));
    (prefix +:+ "bias", Tensor1 (Linear.bias l)) ].

(** [model.state_dict()]: the children in registration order; [relu] and
    [dropout] have no parameters. *)
Definition state_dict (self : TunisianExportPredictor) : OrderedDict :=
  Linear_state_dict "fc1." (fc1 self) ++
  Linear_state_dict "fc2." (fc2 self) ++
  Linear_state_dict "fc3." (fc3 self).

(** [model.parameters()] *)
Definition parameters (self : TunisianExportPredictor) : list Tensor :=
  map snd (state_dict self).

(** [sum(p.numel() for p in model.parameters())] *)
Definition count_parameters (self : TunisianExportPredictor) : nat :=
  list_sum (map numel (parameters self)).

Section Program.

Context {G : Type} `{RandomSource G}.

(** The state the process runs in: the global generator, the tracer
    state (the graph being recorded, when a trace is in progress), the
    file system with the paths that refuse a write, and standard
    output. *)
Record World : Type := mkWorld {
  gen : G;
  tracer : option Graph;
  fs : gmap string File;
  unwritable : gset string;
  stdout : list string
}.

Definition set_gen (g : G) (w : World) : World :=
  mkWorld g (tracer w) (fs w) (unwritable w) (stdout w).
Definition set_tracer (t : option Graph) (w : World) : World :=
  mkWorld (gen w) t (fs w) (unwritable w) (stdout w).
Definition set_fs (f : gmap string File) (w : World) : World :=
  mkWorld (gen w) (tracer w) f (unwritable w) (stdout w).
Definition set_stdout (o : list string) (w : World) : World :=
  mkWorld (gen w) (tracer w) (fs w) (unwritable w) o.

(** A Python computation: it runs in a world, and either returns a
    value or raises; the effects made before a raise stay. *)
Definition Py (A : Type) : Type := World -> Result A * World.

Definition ret {A} (a : A) : Py A := fun w => (Ok a, w).
Definition raise {A} (e : Exception) : Py A := fun w => (Raise e, w).
Definition bind {A B} (m : Py A) (k : A -> Py B) : Py B :=
  fun w => match m w with
           | (Ok a, w') => k a w'
           | (Raise e, w') => (Raise e, w')
           end.

#[global] Instance Py_ret : MRet Py := @ret.
#[global] Instance Py_bind : MBind Py := fun A B k m => bind m k.

Definition from_result {A} (r : Result A) : Py A := fun w => (r, w).

(** A computation on the global generator. *)
Definition with_gen {A} (f : G -> Result A * G) : Py A :=
  fun w => let (r, g') := f (gen w) in (r, set_gen g' w).

Definition modify (f : World -> World) : Py unit := fun w => (Ok tt, f w).

(** The world after an operator has recorded node [n]: while a trace is
    in progress the node is appended to the graph under construction;
    otherwise nothing changes. *)
Definition recorded (n : Node) (w : World) : World :=
  set_tracer (option_map (fun g => g ++ [n]) (tracer w)) w.

Definition record (n : Node) : Py unit := modify (recorded n).

(* =================================================================== *)
(** ** Tensor operators *)
(* =================================================================== *)

(** [max(0, x)] on one element; a NaN stays a NaN. *)
Definition relu1 (x : F32.t) : F32.t :=
  if F32.ltb F32.zero x then x
  else if F32.is_nan x then x else F32.zero.

(** The inner product of an input row with a weight row.  The order in
    which the library's matrix product accumulates is its own; it is fixed
    here as left to right, from zero, the bias being added last. *)
Definition dot (r w : vector) : F32.t :=
  fold_left (fun acc ab => F32.add acc (F32.mul (fst ab) (snd ab)))
            (combine r w) F32.zero.

(** One output row of [x @ weight.T + bias]. *)
Definition linear_row (weight : matrix) (bias : vector) (r : vector) : vector :=
  map (fun wb => F32.add (dot r (fst wb)) (snd wb)) (combine weight bias).

(** [input.size(-1) == weight.size(1)] *)
Definition inner_dims_agree (input weight : matrix) : bool :=
  forallb (fun r => forallb (fun wr => Nat.eqb (length r) (length wr)) weight) input.

(** The value of [aten::linear(input, weight, bias)] with [weight] of
    shape [(out, in)]: [input @ weight.T + bias]. *)
Definition linear_value (input weight : matrix) (bias : vector) : Result matrix :=
  if negb (inner_dims_agree input weight) then
    Raise (RuntimeError "mat1 and mat2 shapes cannot be multiplied")
  else if negb (Nat.eqb (length bias) (length weight)) then
    Raise (RuntimeError "The size of tensor a must match the size of tensor b")
  else Ok (map (linear_row weight bias) input).

(** [F.linear(input, weight, bias)] *)
Definition F_linear (input weight : matrix) (bias : vector) : Py matrix :=
  record (aten_linear weight bias) ;;
  from_result (linear_value input weight bias).

(** [F.relu(input)] *)
Definition F_relu (input : matrix) : Py matrix :=
  record aten_relu ;;
  ret (map (map relu1) input).

(** [noise = empty_like(input).bernoulli_(q)], in row-major order. *)
Fixpoint bernoulli_row (q : Q) (r : vector) (g : G) : list bool * G :=
  match r with
  | [] => ([], g)
  | _ :: r' =>
      let (b, g1) := bernoulli_ q g in
      let (bs, g2) := bernoulli_row q r' g1 in
      (b :: bs, g2)
  end.

Fixpoint bernoulli_like (q : Q) (x : matrix) (g : G) : list (list bool) * G :=
  match x with
  | [] => ([], g)
  | r :: x' =>
      let (bs, g1) := bernoulli_row q r g in
      let (bss, g2) := bernoulli_like q x' g1 in
      (bs :: bss, g2)
  end.

(** One element of [noise.div_(1 - p)]: [1/(1-p)] where the element is
    kept and [0] where it is zeroed. *)
Definition noise1 (p : Q) (keep : bool) : F32.t :=
  F32.div (if keep then F32.one else F32.zero) (F32.of_Q (1 - p)).

(** [input * noise], element by element. *)
Definition mul_noise (p : Q) (input : matrix) (keep : list (list bool)) : matrix :=
  map (fun rk => map (fun xk => F32.mul (fst xk) (noise1 p (snd xk)))
                     (combine (fst rk) (snd rk)))
      (combine input keep).

(** [0 <= p <= 1], the check of [nn.Dropout.__init__] and of
    [F.dropout]. *)
Definition valid_probability (p : Q) : bool := Qle_bool 0 p && Qle_bool p 1.

(** The value of [aten::dropout(input, p, train)] on a CPU tensor, from
    generator state [g].  The input is returned as it is when [p == 0],
    outside training, or when it is empty; everything is zeroed when
    [p == 1]; otherwise each element is kept with probability [1 - p]
    and the kept ones are rescaled by [1 / (1 - p)]. *)
Definition dropout_value (input : matrix) (p : Q) (train : bool) (g : G)
  : Result matrix * G :=
  if negb (valid_probability p) then
    (Raise (ValueError "dropout probability has to be between 0 and 1"), g)
  else if Qeq_bool p 0 || negb train || Nat.eqb (numel2 input) 0 then
    (Ok input, g)
  else if Qeq_bool p 1 then
    (Ok (map (map (fun x => F32.mul x F32.zero)) input), g)
  else
    let (keep, g') := bernoulli_like (1 - p) input g in
    (Ok (mul_noise p input keep), g').

(** [F.dropout(input, p, training)] *)
Definition F_dropout (input : matrix) (p : Q) (train : bool) : Py matrix :=
  record (aten_dropout p train) ;;
  with_gen (dropout_value input p train).

(* =================================================================== *)
(** ** The model *)
(* =================================================================== *)

(** [Linear.forward]: [F.linear(input, self.weight, self.bias)] *)
Definition Linear_forward (self : Linear.t) (input : matrix) : Py matrix :=
  F_linear input (Linear.weight self) (Linear.bias self).

(** [ReLU.forward]: [F.relu(input, inplace=self.inplace)]; the module
    is built with [inplace=False]. *)
Definition ReLU_forward (self : ReLU.t) (input : matrix) : Py matrix :=
  F_relu input.

(** [Dropout.forward]: [F.dropout(input, self.p, self.training, self.inplace)] *)
Definition Dropout_forward (self : Dropout.t) (input : matrix) : Py matrix :=
  F_dropout input (Dropout.p self) (Dropout.training self).

(** [TunisianExportPredictor.forward] *)
Definition forward (self : TunisianExportPredictor) (x : matrix) : Py matrix :=
  x ← Linear_forward (fc1 self) x ≫= ReLU_forward (relu self) ;
  x ← Dropout_forward (dropout self) x ;
  x ← Linear_forward (fc2 self) x ≫= ReLU_forward (relu self) ;
  x ← Linear_forward (fc3 self) x ;
  ret x.

(** Draw one sample from the global generator. *)
Definition sample {A} (f : G -> A * G) : Py A :=
  fun w => let (a, g') := f (gen w) in (Ok a, set_gen g' w).

Fixpoint sample_vector (f : G -> F32.t * G) (n : nat) : Py vector :=
  match n with
  | O => ret []
  | S n' => x ← sample f ; xs ← sample_vector f n' ; ret (x :: xs)
  end.

Fixpoint sample_matrix (f : G -> F32.t * G) (r c : nat) : Py matrix :=
  match r with
  | O => ret []
  | S r' => row ← sample_vector f c ; rows ← sample_matrix f r' c ; ret (row :: rows)
  end.

(** The bound of [Linear.reset_parameters]:
    [kaiming_uniform_(weight, a=sqrt(5))] draws the weight from
    [U(-b, b)] with [b = sqrt(3) * sqrt(2 / (1 + 5)) / sqrt(fan_in)],
    that is [1 / sqrt(fan_in)], and the bias from the same range.  The
    bound is computed here in binary32, the type of the samples. *)
Definition init_bound (fan_in : nat) : F32.t :=
  F32.div F32.one (F32.sqrt (F32.of_Z (Z.of_nat fan_in))).

(** [nn.Linear(in_features, out_features)]: the weight is filled first,
    then the bias; a new module is in training mode. *)
Definition Linear_init (in_features out_features : nat) : Py Linear.t :=
  let b := init_bound in_features in
  weight ← sample_matrix (uniform_ (F32.opp b) b) out_features in_features ;
  bias ← sample_vector (uniform_ (F32.opp b) b) out_features ;
  ret (Linear.mk in_features out_features weight bias true).

(** [TunisianExportPredictor.__init__].  The dropout probability [0.2]
    is kept as the rational 2/10. *)
Definition __init__ : Py TunisianExportPredictor :=
  fc1 ← Linear_init 10 32 ;
  fc2 ← Linear_init 32 16 ;
  fc3 ← Linear_init 16 1 ;
  let relu := ReLU.mk false true in
  let dropout := Dropout.mk (2 # 10) false true in
  ret (mkPredictor fc1 fc2 fc3 relu dropout true).

(** *** What the forward pass computes

    The forward pass touches the world in two ways only: it advances
    the generator (in the dropout stage) and, under a trace, appends to
    the graph.  Its value is given here as a function of the model, the
    input and the generator state. *)

Definition affine (l : Linear.t) (x : matrix) : Result matrix :=
  linear_value x (Linear.weight l) (Linear.bias l).

Definition rectify (x : matrix) : matrix := map (map relu1) x.

Definition forward_value (self : TunisianExportPredictor) (x : matrix) (g : G)
  : Result matrix * G :=
  match affine (fc1 self) x with
  | Raise e => (Raise e, g)
  | Ok h1 =>
      match dropout_value (rectify h1) (Dropout.p (dropout self))
                          (Dropout.training (dropout self)) g with
      | (Raise e, g') => (Raise e, g')
      | (Ok d1, g') =>
          match affine (fc2 self) d1 with
          | Raise e => (Raise e, g')
          | Ok h2 => (affine (fc3 self) (rectify h2), g')
          end
      end
  end.

(** The operators a forward pass of [self] calls, with their constant
    arguments. *)
Definition graph_of (self : TunisianExportPredictor) : Graph :=
  [ aten_linear (Linear.weight (fc1 self)) (Linear.bias (fc1 self));
    aten_relu;
    aten_dropout (Dropout.p (dropout self)) (Dropout.training (dropout self));
    aten_linear (Linear.weight (fc2 self)) (Linear.bias (fc2 self));
    aten_relu;
    aten_linear (Linear.weight (fc3 self)) (Linear.bias (fc3 self)) ].

(** Following the specification's words: layer 1, rectified-linear
    activation, layer 2, rectified-linear activation, layer 3, and no
    activation on the final output. *)
Definition spec_forward_eval (self : TunisianExportPredictor) (x : matrix)
  : Result matrix :=
  match affine (fc1 self) x with
  | Raise e => Raise e
  | Ok h1 =>
      match affine (fc2 self) (rectify h1) with
      | Raise e => Raise e
      | Ok h2 => affine (fc3 self) (rectify h2)
      end
  end.

(** The class invariant: the shapes fixed by [__init__] and the
    dropout probability it passes to [nn.Dropout]. *)
Definition well_formed (self : TunisianExportPredictor) : Prop :=
  has_shape 32 10 (Linear.weight (fc1 self)) /\ length (Linear.bias (fc1 self)) = 32%nat /\
  has_shape 16 32 (Linear.weight (fc2 self)) /\ length (Linear.bias (fc2 self)) = 16%nat /\
  has_shape 1 16 (Linear.weight (fc3 self)) /\ length (Linear.bias (fc3 self)) = 1%nat /\
  Dropout.p (dropout self) = 2 # 10.

(** Every module flag says training, the state [__init__] leaves. *)
Definition in_training_mode (self : TunisianExportPredictor) : Prop :=
  training self = true /\
  Linear.training (fc1 self) = true /\ Linear.training (fc2 self) = true /\
  Linear.training (fc3 self) = true /\ ReLU.training (relu self) = true /\
  Dropout.training (dropout self) = true.

(** [lo <= v <= hi] for a binary32 value [v]. *)
Definition in_range (lo hi v : F32.t) : Prop :=
  F32.valid v = true /\ F32.leb lo v = true /\ F32.leb v hi = true.

(** Every parameter of a layer lies within the bound the default
    initialisation draws from. *)
Definition default_initialized_layer (l : Linear.t) : Prop :=
  let b := init_bound (Linear.in_features l) in
  Forall (Forall (in_range (F32.opp b) b)) (Linear.weight l) /\
  Forall (in_range (F32.opp b) b) (Linear.bias l).

Definition default_initialized (self : TunisianExportPredictor) : Prop :=
  Linear.in_features (fc1 self) = 10%nat /\
  Linear.in_features (fc2 self) = 32%nat /\
  Linear.in_features (fc3 self) = 16%nat /\
  default_initialized_layer (fc1 self) /\
  default_initialized_layer (fc2 self) /\
  default_initialized_layer (fc3 self).

(** Two worlds that differ in the generator state at most. *)
Definition same_but_gen (w w' : World) : Prop :=
  tracer w' = tracer w /\ fs w' = fs w /\
  unwritable w' = unwritable w /\ stdout w' = stdout w.

(* =================================================================== *)
(** ** Traced graphs *)
(* =================================================================== *)

(** A [torch.jit.ScriptModule] obtained by tracing. *)
Record ScriptModule : Type := mkScriptModule { graph : Graph }.

Definition run_node (n : Node) (x : matrix) : Py matrix :=
  match n with
  | aten_linear weight bias => F_linear x weight bias
  | aten_relu => F_relu x
  | aten_dropout p train => F_dropout x p train
  end.

Fixpoint run_graph (g : Graph) (x : matrix) : Py matrix :=
  match g with
  | [] => ret x
  | n :: g' => y ← run_node n x ; run_graph g' y
  end.

(** Calling a traced module runs its graph. *)
Definition ScriptModule_forward (self : ScriptModule) (x : matrix) : Py matrix :=
  run_graph (graph self) x.

(** One traced run: the forward pass is executed on the example input
    with the tracer switched on, and the recorded graph is returned.
    The tracer is switched off again whether the pass returns or raises. *)
Definition trace_once (model : TunisianExportPredictor) (example_input : matrix)
  : Py Graph :=
  fun w =>
    match forward model example_input (set_tracer (Some []) w) with
    | (Ok _, w') =>
        (match tracer w' with
         | Some g => Ok g
         | None => Raise (RuntimeError "tracer state lost")
         end, set_tracer None w')
    | (Raise e, w') => (Raise e, set_tracer None w')
    end.

(** [torch.jit.trace(model, example_input)] with the default
    [check_trace=True]: after the trace, the model is traced a second
    time and the two graphs are compared (a difference raises); then the
    traced module and the model are both run on the example input, and a
    difference between their outputs only emits a warning. *)
Definition jit_trace (model : TunisianExportPredictor) (example_input : matrix)
  : Py ScriptModule :=
  g ← trace_once model example_input ;
  g' ← trace_once model example_input ;
  if negb (bool_decide (g = g')) then
    raise (RuntimeError "Tracing failed sanity checks")
  else
    ScriptModule_forward (mkScriptModule g) example_input ;;
    forward model example_input ;;
    ret (mkScriptModule g).

(* =================================================================== *)
(** ** Files and standard output *)
(* =================================================================== *)

(** Opening [path] for writing fails on a path that refuses writes and
    leaves the file system as it was; otherwise the file is created or
    replaced. *)
Definition write_file (path : string) (f : File) : Py unit :=
  fun w =>
    if bool_decide (path ∈ unwritable w) then (Raise (OSError path), w)
    else (Ok tt, set_fs (<[path := f]> (fs w)) w).

(** [torch.save(obj, path)] for a state dict. *)
Definition torch_save (obj : OrderedDict) (path : string) : Py unit :=
  write_file path (PickledStateDict obj).

(** [ScriptModule.save(path)] *)
Definition ScriptModule_save (self : ScriptModule) (path : string) : Py unit :=
  write_file path (ScriptModuleArchive (graph self)).

(** [torch.load(path)] of a file written by [torch_save]. *)
Definition torch_load (path : string) : Py OrderedDict :=
  fun w =>
    match fs w !! path with
    | Some (PickledStateDict sd) => (Ok sd, w)
    | Some (ScriptModuleArchive _) =>
        (Raise (RuntimeError "not a pickled state_dict"), w)
    | None => (Raise (OSError path), w)
    end.

(** [torch.jit.load(path)] *)
Definition jit_load (path : string) : Py ScriptModule :=
  fun w =>
    match fs w !! path with
    | Some (ScriptModuleArchive g) => (Ok (mkScriptModule g), w)
    | Some (PickledStateDict _) =>
        (Raise (RuntimeError "not a TorchScript archive"), w)
    | None => (Raise (OSError path), w)
    end.

(** [print(s)] *)
Definition print (s : string) : Py unit :=
  modify (fun w => set_stdout (stdout w ++ [s]) w).

(** [sd[key]] *)
Fixpoint od_get (key : string) (sd : OrderedDict) : option Tensor :=
  match sd with
  | [] => None
  | (k, v) :: sd' => if bool_decide (k = key) then Some v else od_get key sd'
  end.

(** The part of [load_state_dict] that fills one linear layer: both
    entries must be present and of the shape of the parameter they
    replace. *)
Definition Linear_load (prefix : string) (l : Linear.t) (sd : OrderedDict)
  : option Linear.t :=
  match od_get (prefix +:+ "weight") sd, od_get (prefix +:+ "bias") sd with
  | Some (Tensor2 w), Some (Tensor1 b) =>
      if bool_decide (shape (Tensor2 w) = shape (Tensor2 (Linear.weight l)))
         && bool_decide (shape (Tensor1 b) = shape (Tensor1 (Linear.bias l)))
      then Some (Linear.mk (Linear.in_features l) (Linear.out_features l)
                           w b (Linear.training l))
      else None
  | _, _ => None
  end.

(** [model.load_state_dict(sd)] with the default [strict=True]: a key
    of [sd] the model does not have, a key of the model missing from
    [sd], or a tensor of another shape raises; otherwise the parameters
    are replaced by the loaded tensors and nothing else changes. *)
Definition load_state_dict (self : TunisianExportPredictor) (sd : OrderedDict)
  : Py TunisianExportPredictor :=
  if negb (forallb (fun kv => bool_decide (fst kv ∈ map fst (state_dict self))) sd)
  then raise (RuntimeError "Unexpected key(s) in state_dict")
  else
    match Linear_load "fc1." (fc1 self) sd,
          Linear_load "fc2." (fc2 self) sd,
          Linear_load "fc3." (fc3 self) sd with
    | Some l1, Some l2, Some l3 =>
        ret (mkPredictor l1 l2 l3 (relu self) (dropout self) (training self))
    | _, _, _ =>
        raise (RuntimeError "Missing key(s) or size mismatch in state_dict")
    end.

(* =================================================================== *)
(** ** The script *)
(* =================================================================== *)

(** The three variables of the [__main__] block. *)
Record Locals : Type := mkLocals {
  model : option TunisianExportPredictor;
  example_input : option matrix;
  traced_model : option ScriptModule
}.

Definition no_locals : Locals := mkLocals None None None.

(** Reading a variable. *)
Definition var {A} (name : string) (v : option A) : Py A :=
  match v with
  | Some a => ret a
  | None => raise (NameError name)
  end.

(** The statements of the [__main__] block, in source order. *)
Inductive Stmt : Type :=
| construct_model      (* model = TunisianExportPredictor() *)
| save_state_dict      (* torch.save(model.state_dict(), "tunisian_export_model.pth") *)
| make_example_input   (* example_input = torch.randn(1, 10) *)
| trace_model          (* traced_model = torch.jit.trace(model, example_input) *)
| save_traced_model    (* traced_model.save("tunisian_export_model_traced.pt") *)
| print_done           (* print("... Modele PyTorch cree et sauvegarde") *)
| print_parameters     (* print(f"  - Parametres: {sum(p.numel() ...)}") *).

Definition pth_path : string := "tunisian_export_model.pth".
Definition traced_path : string := "tunisian_export_model_traced.pt".

(** [str(n)] for a non-negative integer. *)
Definition str_of_nat (n : nat) : string :=
  NilZero.string_of_uint (Nat.to_uint n).

Definition done_line : string := "✅ Modèle PyTorch créé et sauvegardé".
Definition parameters_line (n : nat) : string := "  - Paramètres: " +:+ str_of_nat n.

Definition exec (s : Stmt) (l : Locals) : Py Locals :=
  match s with
  | construct_model =>
      m ← __init__ ;
      ret (mkLocals (Some m) (example_input l) (traced_model l))
  | save_state_dict =>
      m ← var "model" (model l) ;
      torch_save (state_dict m) pth_path ;;
      ret l
  | make_example_input =>
      x ← sample_matrix normal_ 1 10 ;
      ret (mkLocals (model l) (Some x) (traced_model l))
  | trace_model =>
      m ← var "model" (model l) ;
      x ← var "example_input" (example_input l) ;
      t ← jit_trace m x ;
      ret (mkLocals (model l) (example_input l) (Some t))
  | save_traced_model =>
      t ← var "traced_model" (traced_model l) ;
      ScriptModule_save t traced_path ;;
      ret l
  | print_done =>
      print done_line ;;
      ret l
  | print_parameters =>
      m ← var "model" (model l) ;
      print (parameters_line (count_parameters m)) ;;
      ret l
  end.

(** Statements run one after the other; the first one that raises ends
    the run. *)
Fixpoint run (ss : list Stmt) (l : Locals) : Py Locals :=
  match ss with
  | [] => ret l
  | s :: ss' => l' ← exec s l ; run ss' l'
  end.

Definition script : list Stmt :=
  [ construct_model; save_state_dict; make_example_input; trace_model;
    save_traced_model; print_done; print_parameters ].

(** The [if __name__ == "__main__":] block. *)
Definition main : Py Locals := run script no_locals.

(** The exit status of the interpreter: 0 when the script ran to its
    end, 1 when an exception reached the top level. *)
Definition exit_status {A} (r : Result A) : Z :=
  match r with Ok _ => 0 | Raise _ => 1 end.

(** The variable [model] is unbound or bound to a module in training
    mode. *)
Definition model_in_training_mode (l : Locals) : Prop :=
  match model l with
  | Some m => in_training_mode m
  | None => True
  end.

End Program.


(** A world to run the script in: the counter generator at state [g],
    no trace in progress, an empty file system in which the paths of
    [locked] refuse writes, and nothing printed yet. *)
Definition counter_world (g : nat) (locked : gset string) : @World nat :=
  mkWorld g None ∅ locked [].

(** The model the constructor returns from the counter generator at
    state 0. *)
Definition counter_model : TunisianExportPredictor :=
  Eval vm_compute in
    match fst (__init__ (counter_world 0 ∅)) with
    | Ok m => m
    | Raise _ => mkPredictor (Linear.mk 0 0 [] [] true) (Linear.mk 0 0 [] [] true)
                   (Linear.mk 0 0 [] [] true) (ReLU.mk false true)
                   (Dropout.mk 0 false true) true
    end.

(** The model built from the counter generator, with the probability of
    its dropout stage set to one. *)
Definition counter_model_p1 : TunisianExportPredictor :=
  mkPredictor (fc1 counter_model) (fc2 counter_model) (fc3 counter_model)
              (relu counter_model) (Dropout.mk 1 false true) true.

(** A row of [n] zeros with a one at position [j]. *)
Fixpoint unit_row (n j : nat) : vector :=
  match n with
  | O => []
  | S n' =>
      match j with
      | O => F32.one :: repeat F32.zero n'
      | S j' => F32.zero :: unit_row n' j'
      end
  end.

(** A model of the class, in training mode, whose output is the [j]-th
    activation that leaves the dropout stage: the first layer returns
    ones whatever its input, the second layer copies activation [j] to
    its first output and the third layer copies that output. *)
Definition probe_model (j : nat) : TunisianExportPredictor :=
  mkPredictor
    (Linear.mk 10 32 (repeat (repeat F32.zero 10) 32) (repeat F32.one 32) true)
    (Linear.mk 32 16 (unit_row 32 j :: repeat (repeat F32.zero 32) 15)
               (repeat F32.zero 16) true)
    (Linear.mk 16 1 [unit_row 16 0] [F32.zero] true)
    (ReLU.mk false true) (Dropout.mk (2 # 10) false true) true.

(** The 32 Bernoulli samples the dropout stage of the class draws for a
    batch of one, from generator state [g]. *)
Definition mask32 {G : Type} `{RandomSource G} (g : G) : list bool :=
  fst (bernoulli_row (1 - (2 # 10)) (repeat F32.one 32) g).

(** The factor of a kept activation, [1 / (1 - 0.2)]. *)
Definition kept_scale : F32.t := S754_finite false 10485760 (-23).

(** An activation of value one after the dropout stage. *)
Definition dropped_one (keep : bool) : F32.t :=
  if keep then kept_scale else F32.zero.

(** The two values an activation of one can take after dropout. *)
Definition two_valued (v : F32.t) : Prop := v = kept_scale \/ v = F32.zero.

(* ===================================================================== *)
(** * Properties *)
(* ===================================================================== *)

(** ** binary32 arithmetic on small values does not overflow *)

Lemma digits2_pos_lt (m : positive) : Zpos m < 2 ^ Zpos (digits2_pos m).
Proof.
  induction m as [m IH|m IH|]; simpl digits2_pos.
  - rewrite Pos2Z.inj_succ, Z.pow_succ_r by lia. lia.
  - rewrite Pos2Z.inj_succ, Z.pow_succ_r by lia. lia.
  - reflexivity.
Qed.

Lemma digits2_pos_ge (m : positive) : 2 ^ (Zpos (digits2_pos m) - 1) <= Zpos m.
Proof.
  induction m as [m IH|m IH|]; simpl digits2_pos.
  - rewrite Pos2Z.inj_succ. replace (Z.succ (Zpos (digits2_pos m)) - 1) with (Z.succ (Zpos (digits2_pos m) - 1)) by lia.
    rewrite Z.pow_succ_r by lia. lia.
  - rewrite Pos2Z.inj_succ. replace (Z.succ (Zpos (digits2_pos m)) - 1) with (Z.succ (Zpos (digits2_pos m) - 1)) by lia.
    rewrite Z.pow_succ_r by lia. lia.
  - simpl. lia.
Qed.

Lemma digits2_pos_le (m : positive) (k : Z) :
  0 <= k -> Zpos m < 2 ^ k -> Zpos (digits2_pos m) <= k.
Proof.
  intros Hk Hm.
  destruct (Z_le_gt_dec (Zpos (digits2_pos m)) k) as [|Hgt]; [assumption|].
  exfalso. pose proof (digits2_pos_ge m) as Hge.
  assert (2 ^ k <= 2 ^ (Zpos (digits2_pos m) - 1)) by (apply Z.pow_le_mono_r; lia).
  lia.
Qed.

Lemma iter_pos_nat {A} (f : A -> A) (p : positive) (x : A) :
  SpecFloat.iter_pos f p x = Nat.iter (Pos.to_nat p) f x.
Proof.
  revert x. induction p as [p IH|p IH|]; intros x; simpl SpecFloat.iter_pos.
  - rewrite !IH, Pos2Nat.inj_xI, Nat.iter_succ_r.
    replace (2 * Pos.to_nat p)%nat with (Pos.to_nat p + Pos.to_nat p)%nat by lia.
    rewrite Nat.iter_add. reflexivity.
  - rewrite !IH, Pos2Nat.inj_xO.
    replace (2 * Pos.to_nat p)%nat with (Pos.to_nat p + Pos.to_nat p)%nat by lia.
    rewrite Nat.iter_add. reflexivity.
  - reflexivity.
Qed.

Lemma shr_1_m mrs : 0 <= shr_m mrs -> shr_m (shr_1 mrs) = shr_m mrs / 2.
Proof.
  destruct mrs as [m r s]. simpl. intros Hm.
  destruct m as [|[p|p|]|p]; cbn [shr_m]; try lia; try reflexivity.
  - apply Z.div_unique with 1; lia.
  - apply Z.div_unique with 0; lia.
Qed.

Lemma iter_shr_1_m (n : nat) mrs :
  0 <= shr_m mrs -> shr_m (Nat.iter n shr_1 mrs) = shr_m mrs / 2 ^ Z.of_nat n.
Proof.
  intros Hm. induction n as [|n IH].
  - simpl. rewrite Z.div_1_r. reflexivity.
  - rewrite Nat2Z.inj_succ, Z.pow_succ_r by lia. simpl Nat.iter.
    rewrite shr_1_m.
    + rewrite IH, Z.div_div by lia. f_equal. lia.
    + rewrite IH. apply Z.div_pos; lia.
Qed.

(** The mantissa and the exponent after [shr]. *)
Lemma shr_spec mrs e n :
  0 <= shr_m mrs ->
  shr_m (fst (shr mrs e n)) = shr_m mrs / 2 ^ Z.max 0 n /\
  snd (shr mrs e n) = e + Z.max 0 n.
Proof.
  intros Hm. destruct n as [|p|p]; simpl shr; simpl fst; simpl snd.
  - rewrite Z.div_1_r. split; [reflexivity|lia].
  - rewrite iter_pos_nat, iter_shr_1_m by assumption.
    rewrite positive_nat_Z. replace (Z.max 0 (Zpos p)) with (Zpos p) by lia. auto.
  - replace (Z.max 0 (Zneg p)) with 0 by lia. rewrite Z.div_1_r. split; [reflexivity|lia].
Qed.

Lemma shr_record_of_loc_m m l : shr_m (shr_record_of_loc m l) = m.
Proof. destruct l as [|[]]; reflexivity. Qed.

Lemma round_nearest_even_cases m l :
  round_nearest_even m l = m \/ round_nearest_even m l = m + 1.
Proof.
  destruct l as [|[]]; simpl; auto. destruct (Z.even m); auto.
Qed.

Lemma Zdigits2_lt (m : Z) : 0 <= m -> m < 2 ^ Zdigits2 m.
Proof.
  destruct m as [|p|p]; simpl; intros Hm; [lia| |lia].
  apply digits2_pos_lt.
Qed.

Lemma Zdigits2_le (m k : Z) : 0 <= m -> 0 <= k -> m < 2 ^ k -> Zdigits2 m <= k.
Proof.
  destruct m as [|p|p]; simpl; intros Hm Hk Hlt; [lia| |lia].
  apply digits2_pos_le; assumption.
Qed.

(** One [shr_fexp] step at binary32: the mantissa that comes out has at
    most 24 digits, and the exponent is the larger of the incoming one
    and the canonical one. *)
Lemma shr_fexp_spec (m e : Z) (l : location) :
  0 <= m ->
  0 <= shr_m (fst (shr_fexp 24 128 m e l)) < 2 ^ 24 /\
  snd (shr_fexp 24 128 m e l) = Z.max e (fexp 24 128 (Zdigits2 m + e)).
Proof.
  intros Hm. unfold shr_fexp.
  pose proof (shr_spec (shr_record_of_loc m l) e
                (fexp 24 128 (Zdigits2 m + e) - e)) as Hs.
  rewrite shr_record_of_loc_m in Hs. destruct (Hs Hm) as [Em Ee]. clear Hs.
  rewrite Em, Ee. clear Em Ee.
  set (N := Z.max 0 (fexp 24 128 (Zdigits2 m + e) - e)).
  assert (HN : 0 <= N /\ Zdigits2 m - 24 <= N).
  { unfold N, fexp, emin. lia. }
  split; [split|].
  - apply Z.div_pos; [lia|]. apply Z.pow_pos_nonneg; lia.
  - apply Z.div_lt_upper_bound; [apply Z.pow_pos_nonneg; lia|].
    rewrite <- Z.pow_add_r by lia.
    apply Z.lt_le_trans with (2 ^ Zdigits2 m); [apply Zdigits2_lt; assumption|].
    apply Z.pow_le_mono_r; lia.
  - unfold N. lia.
Qed.

Lemma binary_round_aux_small (s : bool) (m : positive) (e k : Z) :
  Zpos (digits2_pos m) + e - 24 <= k -> e <= k -> -149 <= k -> k + 1 <= 104 ->
  small (k + 1) (binary_round_aux 24 128 s (Zpos m) e loc_Exact).
Proof.
  intros Hd He Hk Hk'. unfold binary_round_aux.
  destruct (shr_fexp_spec (Zpos m) e loc_Exact) as [[Hm1 Hm1'] He1]; [lia|].
  destruct (shr_fexp 24 128 (Zpos m) e loc_Exact) as [mrs1 e1].
  cbn [fst snd] in Hm1, Hm1', He1.
  set (m2 := round_nearest_even (shr_m mrs1) (loc_of_shr_record mrs1)).
  assert (Hm2 : 0 <= m2 <= 2 ^ 24).
  { unfold m2. destruct (round_nearest_even_cases (shr_m mrs1) (loc_of_shr_record mrs1))
      as [-> | ->]; lia. }
  assert (He1' : -149 <= e1 <= k).
  { rewrite He1. unfold fexp, emin. simpl Zdigits2. lia. }
  destruct (shr_fexp_spec m2 e1 loc_Exact) as [[Hm3 Hm3'] He2]; [lia|].
  destruct (shr_fexp 24 128 m2 e1 loc_Exact) as [mrs2 e2].
  cbn [fst snd] in Hm3, Hm3', He2.
  assert (Hd2 : Zdigits2 m2 <= 25).
  { apply Zdigits2_le; [lia|lia|]. change (2 ^ 25) with (2 * 2 ^ 24). lia. }
  assert (He2' : e2 <= k + 1).
  { rewrite He2. unfold fexp, emin. lia. }
  destruct (shr_m mrs2) as [|m3|m3]; [exact I| |lia].
  replace (e2 <=? 128 - 24) with true by (symmetry; apply Z.leb_le; lia).
  split; [|exact He2'].
  apply digits2_pos_le; lia.
Qed.

Lemma small_mono (a b : Z) (x : spec_float) : a <= b -> small a x -> small b x.
Proof. destruct x; simpl; intros; lia. Qed.

Lemma shl_align_spec (mx : positive) (ex ex' : Z) :
  snd (shl_align mx ex ex') = Z.min ex ex' /\
  Zpos (fst (shl_align mx ex ex')) = Zpos mx * 2 ^ (ex - Z.min ex ex').
Proof.
  unfold shl_align. destruct (ex' - ex) as [|d|d] eqn:Ed; cbn [fst snd].
  - replace (Z.min ex ex') with ex by lia. rewrite Z.sub_diag. lia.
  - replace (Z.min ex ex') with ex by lia. rewrite Z.sub_diag. lia.
  - replace (Z.min ex ex') with ex' by lia.
    replace (ex - ex') with (Zpos d) by lia.
    change (Pos.iter xO mx d) with (shift_pos d mx).
    rewrite shift_pos_correct. unfold Zpower_pos. change (2 ^ Zpos d) with (Z.pow_pos 2 d).
    unfold Z.pow_pos. lia.
Qed.

Lemma binary_round_small (s : bool) (m : positive) (e k : Z) :
  Zpos (digits2_pos m) + e - 24 <= k -> e <= k -> -149 <= k -> k + 1 <= 104 ->
  small (k + 1) (binary_round 24 128 s m e).
Proof.
  intros Hd He Hk Hk'. unfold binary_round.
  destruct (shl_align_spec m e (fexp 24 128 (Zpos (digits2_pos m) + e))) as [Hs Hf].
  destruct (shl_align m e _) as [mz ez]. cbn [fst snd] in Hs, Hf.
  apply binary_round_aux_small; try lia.
  assert (Hmz : Zpos (digits2_pos mz) <= Zpos (digits2_pos m) + (e - ez)).
  { rewrite <- Hs in Hf.
    apply digits2_pos_le; [lia|]. rewrite Hf, Z.pow_add_r by lia.
    apply Z.mul_lt_mono_pos_r; [apply Z.pow_pos_nonneg; lia|].
    apply digits2_pos_lt. }
  lia.
Qed.

Lemma mul_small (a b : Z) (x y : spec_float) :
  small a x -> small b y -> -149 <= a + b + 24 -> a + b + 25 <= 104 ->
  small (a + b + 25) (SFmul 24 128 x y).
Proof.
  intros Hx Hy Hlo Hhi.
  destruct x as [sx|sx| |sx mx ex], y as [sy|sy| |sy my ey]; simpl in Hx, Hy; try tauto;
    try exact I.
  destruct Hx as [Hdx Hex], Hy as [Hdy Hey]. unfold SFmul.
  replace (a + b + 25) with ((a + b + 24) + 1) by lia.
  apply binary_round_aux_small; try lia.
  assert (Zpos (digits2_pos (mx * my)) <= Zpos (digits2_pos mx) + Zpos (digits2_pos my)).
  { apply digits2_pos_le; [lia|]. rewrite Pos2Z.inj_mul, Z.pow_add_r by lia.
    pose proof (digits2_pos_lt mx). pose proof (digits2_pos_lt my). nia. }
  lia.
Qed.

Lemma add_small (a : Z) (x y : spec_float) :
  small a x -> small a y -> -150 <= a -> a + 2 <= 104 ->
  small (a + 2) (SFadd 24 128 x y).
Proof.
  intros Hx Hy Hlo Hhi.
  destruct x as [sx|sx| |sx mx ex], y as [sy|sy| |sy my ey]; simpl in Hx, Hy; try tauto.
  - simpl. destruct sx, sy; exact I.
  - simpl. lia.
  - simpl. lia.
  - destruct Hx as [Hdx Hex], Hy as [Hdy Hey]. unfold SFadd.
    set (ez := Z.min ex ey).
    destruct (shl_align_spec mx ex ez) as [_ HX], (shl_align_spec my ey ez) as [_ HY].
    replace (Z.min ex ez) with ez in HX by (unfold ez; lia).
    replace (Z.min ey ez) with ez in HY by (unfold ez; lia).
    set (X := Zpos (fst (shl_align mx ex ez))) in *.
    set (Y := Zpos (fst (shl_align my ey ez))) in *.
    assert (HXb : 0 < X < 2 ^ (24 + a - ez)).
    { split; [unfold X; lia|]. rewrite HX.
      apply Z.lt_le_trans with (2 ^ Zpos (digits2_pos mx) * 2 ^ (ex - ez)).
      - apply Z.mul_lt_mono_pos_r; [apply Z.pow_pos_nonneg; unfold ez; lia|].
        apply digits2_pos_lt.
      - rewrite <- Z.pow_add_r by (unfold ez; lia). apply Z.pow_le_mono_r; lia. }
    assert (HYb : 0 < Y < 2 ^ (24 + a - ez)).
    { split; [unfold Y; lia|]. rewrite HY.
      apply Z.lt_le_trans with (2 ^ Zpos (digits2_pos my) * 2 ^ (ey - ez)).
      - apply Z.mul_lt_mono_pos_r; [apply Z.pow_pos_nonneg; unfold ez; lia|].
        apply digits2_pos_lt.
      - rewrite <- Z.pow_add_r by (unfold ez; lia). apply Z.pow_le_mono_r; lia. }
    assert (Hz : Z.abs (cond_Zopp sx X + cond_Zopp sy Y) < 2 ^ (25 + a - ez)).
    { replace (25 + a - ez) with (Z.succ (24 + a - ez)) by lia.
      rewrite Z.pow_succ_r by (unfold ez; lia).
      destruct sx, sy; unfold cond_Zopp; lia. }
    assert (Hez : ez <= a) by (unfold ez; lia).
    replace (a + 2) with ((a + 1) + 1) by lia.
    destruct (cond_Zopp sx X + cond_Zopp sy Y) as [|m|m]; cbn [binary_normalize].
    + exact I.
    + apply binary_round_small; try lia.
      assert (Zpos (digits2_pos m) <= 25 + a - ez) by (apply digits2_pos_le; lia). lia.
    + apply binary_round_small; try lia.
      assert (Zpos (digits2_pos m) <= 25 + a - ez) by (apply digits2_pos_le; lia). lia.
Qed.


Section Properties.

Context {G : Type} `{RandomSource G}.

Implicit Types (w : @World G) (m : TunisianExportPredictor) (x : matrix).

(** ** Running a computation *)

Lemma bind_run {A B} (c : Py A) (k : A -> Py B) w :
  (c ≫= k) w = match c w with
               | (Ok a, w') => k a w'
               | (Raise e, w') => (Raise e, w')
               end.
Proof. reflexivity. Qed.

Lemma F_linear_run x W b w :
  F_linear x W b w = (linear_value x W b, recorded (aten_linear W b) w).
Proof. reflexivity. Qed.

Lemma F_relu_run x w :
  F_relu x w = (Ok (rectify x), recorded aten_relu w).
Proof. reflexivity. Qed.

Lemma F_dropout_run x p t w :
  F_dropout x p t w =
  (fst (dropout_value x p t (gen w)),
   set_gen (snd (dropout_value x p t (gen w))) (recorded (aten_dropout p t) w)).
Proof.
  unfold F_dropout. rewrite bind_run. simpl. unfold with_gen. simpl.
  destruct (dropout_value x p t (gen w)); reflexivity.
Qed.

(** The value of a forward pass and the generator it leaves depend on
    the model, the input and the generator only; files and standard
    output are not touched. *)
Lemma forward_run m x w :
  fst (forward m x w) = fst (forward_value m x (gen w)) /\
  gen (snd (forward m x w)) = snd (forward_value m x (gen w)) /\
  fs (snd (forward m x w)) = fs w /\
  unwritable (snd (forward m x w)) = unwritable w /\
  stdout (snd (forward m x w)) = stdout w.
Proof.
  unfold forward, forward_value, Linear_forward, ReLU_forward, Dropout_forward, affine.
  rewrite !bind_run, F_linear_run.
  destruct (linear_value x _ _) as [h1|e]; [|simpl; tauto].
  rewrite F_relu_run, bind_run, F_dropout_run; cbn [gen recorded set_tracer fst snd].
  destruct (dropout_value _ _ _ _) as [[d1|e] g']; [|simpl; tauto].
  cbn [fst snd]. rewrite !bind_run, F_linear_run.
  destruct (linear_value d1 _ _) as [h2|e]; [|simpl; tauto].
  rewrite F_relu_run, !bind_run, F_linear_run.
  destruct (linear_value (rectify h2) _ _); simpl; tauto.
Qed.

(** ** Construction *)

Lemma same_but_gen_refl w : same_but_gen w w.
Proof. repeat split. Qed.

Lemma same_but_gen_trans w1 w2 w3 :
  same_but_gen w1 w2 -> same_but_gen w2 w3 -> same_but_gen w1 w3.
Proof. unfold same_but_gen. intuition congruence. Qed.

Lemma sample_vector_spec (P : F32.t -> Prop) (f : G -> F32.t * G) :
  (forall g, P (fst (f g))) ->
  forall n w, exists v w',
    sample_vector f n w = (Ok v, w') /\ length v = n /\ Forall P v /\
    same_but_gen w w'.
Proof.
  intros HP. induction n as [|n IH]; intros w; simpl.
  - exists [], w. auto using same_but_gen_refl.
  - rewrite bind_run. unfold sample at 1.
    destruct (f (gen w)) as [a g'] eqn:Ef.
    destruct (IH (set_gen g' w)) as (v & w' & Ev & Hl & HF & Hs).
    rewrite bind_run, Ev. exists (a :: v), w'. simpl.
    repeat split; try apply Hs; auto.
    constructor; auto. specialize (HP (gen w)). rewrite Ef in HP. exact HP.
Qed.

Lemma sample_matrix_spec (P : F32.t -> Prop) (f : G -> F32.t * G) :
  (forall g, P (fst (f g))) ->
  forall r c w, exists t w',
    sample_matrix f r c w = (Ok t, w') /\ has_shape r c t /\
    Forall (Forall P) t /\ same_but_gen w w'.
Proof.
  intros HP. induction r as [|r IH]; intros c w; simpl.
  - exists [], w. unfold has_shape. auto using same_but_gen_refl.
  - rewrite bind_run.
    destruct (sample_vector_spec P f HP c w) as (v & w1 & Ev & Hl & HF & Hs).
    rewrite Ev.
    destruct (IH c w1) as (t & w2 & Et & [Hr Hc] & HFt & Hs2).
    rewrite bind_run, Et. exists (v :: t), w2. unfold has_shape. simpl.
    repeat split; auto; try (eapply same_but_gen_trans; eauto).
Qed.

(** The three bounds [__init__] draws from are proper ranges. *)
Lemma init_bound_range (n : nat) :
  n = 10%nat \/ n = 32%nat \/ n = 16%nat ->
  F32.valid (F32.opp (init_bound n)) = true /\
  F32.valid (init_bound n) = true /\
  F32.leb (F32.opp (init_bound n)) (init_bound n) = true.
Proof. intros [-> | [-> | ->]]; vm_compute; auto. Qed.

Lemma Linear_init_spec (i o : nat) w :
  i = 10%nat \/ i = 32%nat \/ i = 16%nat ->
  exists l w',
    Linear_init i o w = (Ok l, w') /\
    Linear.in_features l = i /\ Linear.out_features l = o /\
    has_shape o i (Linear.weight l) /\ length (Linear.bias l) = o /\
    Linear.training l = true /\ default_initialized_layer l /\
    same_but_gen w w'.
Proof.
  intros Hi. unfold Linear_init.
  destruct (init_bound_range i Hi) as (Hlo & Hhi & Hle).
  set (b := init_bound i) in *.
  assert (HP : forall g, in_range (F32.opp b) b (fst (uniform_ (F32.opp b) b g))).
  { intros g. apply uniform_range; assumption. }
  destruct (sample_matrix_spec _ _ HP o i w) as (W & w1 & EW & HW & HFW & Hs1).
  destruct (sample_vector_spec _ _ HP o w1) as (v & w2 & Ev & Hv & HFv & Hs2).
  exists (Linear.mk i o W v true), w2.
  rewrite bind_run, EW, bind_run, Ev.
  unfold default_initialized_layer. simpl. fold b.
  assert (Hs : same_but_gen w w2) by (eapply same_but_gen_trans; eauto).
  tauto.
Qed.

(** The constructor never raises; the model it returns has the shapes
    of the class, every parameter within the initialisation bound, and
    is in training mode; only the generator has advanced. *)
Lemma init_spec w :
  exists m w',
    __init__ w = (Ok m, w') /\ well_formed m /\ in_training_mode m /\
    default_initialized m /\ same_but_gen w w'.
Proof.
  unfold __init__.
  destruct (Linear_init_spec 10 32 w) as (l1 & w1 & E1 & Hi1 & _ & HW1 & Hb1 & Ht1 & Hd1 & Hs1); [auto|].
  destruct (Linear_init_spec 32 16 w1) as (l2 & w2 & E2 & Hi2 & _ & HW2 & Hb2 & Ht2 & Hd2 & Hs2); [auto|].
  destruct (Linear_init_spec 16 1 w2) as (l3 & w3 & E3 & Hi3 & _ & HW3 & Hb3 & Ht3 & Hd3 & Hs3); [auto|].
  rewrite bind_run, E1, bind_run, E2, bind_run, E3.
  eexists. exists w3. split; [reflexivity|].
  split; [|split; [|split]].
  - unfold well_formed. simpl. tauto.
  - unfold in_training_mode. simpl. tauto.
  - unfold default_initialized. simpl. tauto.
  - eapply same_but_gen_trans; [eapply same_but_gen_trans|]; eauto.
Qed.

(** ** Shapes *)

Lemma has_shapeb_spec r c (t : matrix) :
  has_shapeb r c t = true <-> has_shape r c t.
Proof.
  unfold has_shapeb, has_shape.
  rewrite andb_true_iff, Nat.eqb_eq.
  assert (forallb (fun row => Nat.eqb (length row) c) t = true <->
          Forall (fun row => length row = c) t) as ->; [|tauto].
  induction t as [|a t IH]; simpl.
  - split; auto.
  - rewrite andb_true_iff, Nat.eqb_eq, IH. split.
    + intros []. constructor; auto.
    + intros HF. inversion HF; auto.
Qed.

Lemma numel2_shape r c (t : matrix) : has_shape r c t -> numel2 t = (r * c)%nat.
Proof.
  unfold has_shape, numel2. intros [<- HF].
  induction HF as [|a t Ha HF IH]; simpl; [reflexivity|].
  rewrite IH, Ha. reflexivity.
Qed.

Lemma inner_dims_agree_shape b o i (x W : matrix) :
  has_shape b i x -> has_shape o i W -> inner_dims_agree x W = true.
Proof.
  unfold has_shape, inner_dims_agree. intros [_ Hx] [_ HW].
  induction Hx as [|r x Hr Hx IH]; simpl; [reflexivity|].
  rewrite IH, andb_true_r. clear IH Hx.
  induction HW as [|wr W Hwr HW IH]; simpl; [reflexivity|].
  rewrite IH, andb_true_r. apply Nat.eqb_eq. congruence.
Qed.

Lemma linear_value_shape b o i (x W : matrix) (bias : vector) :
  has_shape b i x -> has_shape o i W -> length bias = o ->
  linear_value x W bias = Ok (map (linear_row W bias) x) /\
  has_shape b o (map (linear_row W bias) x).
Proof.
  intros Hx HW Hb. unfold linear_value.
  rewrite (inner_dims_agree_shape b o i x W Hx HW). simpl.
  destruct HW as [HWl HWr]. rewrite Hb, HWl, Nat.eqb_refl. simpl.
  split; [reflexivity|].
  destruct Hx as [Hxl _]. unfold has_shape. rewrite length_map. split; [exact Hxl|].
  apply Forall_map. apply Forall_true. intros r. unfold linear_row.
  rewrite length_map, length_combine. lia.
Qed.

Lemma rectify_shape r c (x : matrix) : has_shape r c x -> has_shape r c (rectify x).
Proof.
  unfold has_shape, rectify. intros [Hl HF]. rewrite length_map. split; [exact Hl|].
  apply Forall_map. eapply Forall_impl; [exact HF|].
  intros row Hrow. simpl. rewrite length_map. exact Hrow.
Qed.

Lemma bernoulli_row_length q (r : vector) (g : G) :
  length (fst (bernoulli_row q r g)) = length r.
Proof.
  revert g. induction r as [|a r IH]; intros g; simpl; [reflexivity|].
  destruct (bernoulli_ q g) as [b g1].
  specialize (IH g1). destruct (bernoulli_row q r g1). simpl in *. congruence.
Qed.

Lemma mul_noise_shape p r c (x : matrix) (g : G) :
  has_shape r c x ->
  has_shape r c (mul_noise p x (fst (bernoulli_like (1 - p) x g))).
Proof.
  unfold has_shape. intros [<- HF]. revert g.
  induction HF as [|row x Hrow HF IH]; intros g; simpl; [split; constructor|].
  pose proof (bernoulli_row_length (1 - p) row g) as Hk.
  destruct (bernoulli_row (1 - p) row g) as [k g1].
  specialize (IH g1). destruct (bernoulli_like (1 - p) x g1) as [ks g2].
  simpl in *. destruct IH as [IHl IHF].
  split; [f_equal; exact IHl|]. unfold mul_noise. simpl.
  constructor; [|exact IHF].
  rewrite length_map, length_combine. lia.
Qed.

Lemma dropout_value_shape r c (x : matrix) p t (g : G) :
  valid_probability p = true -> has_shape r c x ->
  exists y g', dropout_value x p t g = (Ok y, g') /\ has_shape r c y.
Proof.
  intros Hp Hx. unfold dropout_value. rewrite Hp. simpl.
  destruct (Qeq_bool p 0 || negb t || Nat.eqb (numel2 x) 0); [eauto|].
  destruct (Qeq_bool p 1).
  - eexists _, g. split; [reflexivity|].
    destruct Hx as [Hl HF]. unfold has_shape. rewrite length_map. split; [exact Hl|].
    apply Forall_map. eapply Forall_impl; [exact HF|].
    intros row Hrow. simpl. rewrite length_map. exact Hrow.
  - pose proof (mul_noise_shape p r c x g Hx) as Hm.
    destruct (bernoulli_like (1 - p) x g) as [keep g']. eauto.
Qed.

Lemma well_formed_train t m : well_formed m -> well_formed (train t m).
Proof. unfold well_formed. simpl. tauto. Qed.

(** On an input with ten columns a model of the class never raises,
    whatever its mode, and returns one column. *)
Lemma forward_value_shape m batch x (g : G) :
  well_formed m -> has_shape batch 10 x ->
  exists y, fst (forward_value m x g) = Ok y /\ has_shape batch 1 y.
Proof.
  intros (HW1 & Hb1 & HW2 & Hb2 & HW3 & Hb3 & Hp) Hx.
  unfold forward_value, affine.
  destruct (linear_value_shape batch 32 10 x _ _ Hx HW1 Hb1) as [E1 S1]. rewrite E1.
  apply rectify_shape in S1.
  assert (Hv : valid_probability (Dropout.p (dropout m)) = true)
    by (rewrite Hp; reflexivity).
  destruct (dropout_value_shape batch 32 _ (Dropout.p (dropout m))
              (Dropout.training (dropout m)) g Hv S1) as (d & g' & Ed & Sd).
  rewrite Ed.
  destruct (linear_value_shape batch 16 32 d _ _ Sd HW2 Hb2) as [E2 S2]. rewrite E2.
  apply rectify_shape in S2.
  destruct (linear_value_shape batch 1 16 _ _ _ S2 HW3 Hb3) as [E3 S3]. rewrite E3.
  eauto.
Qed.

Lemma forward_returns m batch x w :
  well_formed m -> has_shape batch 10 x ->
  exists y, fst (forward m x w) = Ok y /\ has_shape batch 1 y.
Proof.
  intros Hm Hx. destruct (forward_run m x w) as (-> & _).
  eapply forward_value_shape; eauto.
Qed.

(** C6.  For every model with the shapes of the class, in training or
    in evaluation mode, every batch size and every input of shape
    [(batch, 10)], the forward pass returns a tensor, of shape
    [(batch, 1)]. *)
Theorem forward_shape m batch x w :
  well_formed m -> (1 <= batch)%nat -> has_shape batch 10 x ->
  exists y, fst (forward m x w) = Ok y /\ has_shape batch 1 y.
Proof.
  intros Hm _ Hx. apply forward_returns; assumption.
Qed.

(** ** Tracing *)

(** A forward pass that returns has recorded the six operators of
    [graph_of], in order, when a trace is in progress. *)
Lemma forward_ok m x w y :
  fst (forward m x w) = Ok y ->
  snd (forward m x w) =
  mkWorld (snd (forward_value m x (gen w)))
          (option_map (fun g => g ++ graph_of m) (tracer w))
          (fs w) (unwritable w) (stdout w).
Proof.
  unfold forward, forward_value, Linear_forward, ReLU_forward, Dropout_forward, affine.
  rewrite !bind_run, F_linear_run.
  destruct (linear_value x _ _) as [h1|e]; [|discriminate].
  rewrite F_relu_run, bind_run, F_dropout_run; cbn [gen recorded set_tracer fst snd].
  destruct (dropout_value _ _ _ _) as [[d1|e] g']; [|discriminate].
  cbn [fst snd]. rewrite !bind_run, F_linear_run.
  destruct (linear_value d1 _ _) as [h2|e]; [|discriminate].
  rewrite F_relu_run, !bind_run, F_linear_run.
  destruct (linear_value (rectify h2) _ _); [|discriminate].
  intros _. unfold graph_of, recorded, set_gen, set_tracer. simpl.
  f_equal. destruct (tracer w); simpl; [|reflexivity].
  rewrite <- !app_assoc. reflexivity.
Qed.

(** Running the graph of a model is running its forward pass: the same
    operators, on the same constants, in the same order. *)
Lemma run_graph_forward m x w : run_graph (graph_of m) x w = forward m x w.
Proof.
  unfold forward, graph_of, Linear_forward, ReLU_forward, Dropout_forward.
  cbn [run_graph run_node].
  rewrite !bind_run, F_linear_run.
  destruct (linear_value x _ _) as [h1|e]; [|reflexivity].
  rewrite !bind_run, F_relu_run, !bind_run, F_dropout_run.
  destruct (dropout_value _ _ _ _) as [[d1|e] g']; [|reflexivity].
  cbn [fst snd]. rewrite !bind_run, F_linear_run.
  destruct (linear_value d1 _ _) as [h2|e]; [|reflexivity].
  rewrite !bind_run, F_relu_run, !bind_run, F_linear_run.
  destruct (linear_value (rectify h2) _ _); reflexivity.
Qed.

(** A traced run that returns has recorded [graph_of] and nothing else,
    and has left the tracer switched off. *)
Lemma trace_once_ok m x w g w' :
  trace_once m x w = (Ok g, w') ->
  g = graph_of m /\ tracer w' = None /\ fs w' = fs w /\
  unwritable w' = unwritable w /\ stdout w' = stdout w.
Proof.
  unfold trace_once.
  pose proof (forward_ok m x (set_tracer (Some []) w)) as Hok.
  destruct (forward m x (set_tracer (Some []) w)) as [[y|e] w1]; [|discriminate].
  specialize (Hok y eq_refl). simpl in Hok. subst w1. simpl.
  intros [= <- <-]. simpl. auto.
Qed.

Lemma trace_once_returns m x w :
  well_formed m -> has_shape 1 10 x ->
  exists w', trace_once m x w = (Ok (graph_of m), w').
Proof.
  intros Hm Hx. unfold trace_once.
  pose proof (forward_ok m x (set_tracer (Some []) w)) as Hok.
  destruct (forward_returns m 1 x (set_tracer (Some []) w) Hm Hx) as (y & Ey & _).
  destruct (forward m x (set_tracer (Some []) w)) as [r w1]. simpl in Ey. subst r.
  specialize (Hok y eq_refl). simpl in Hok. subst w1. simpl. eauto.
Qed.

(** [torch.jit.trace] either raises or returns the module whose graph
    is [graph_of] the traced model; it touches neither files nor
    standard output. *)
Lemma jit_trace_ok m x w t w' :
  jit_trace m x w = (Ok t, w') ->
  graph t = graph_of m /\ fs w' = fs w /\
  unwritable w' = unwritable w /\ stdout w' = stdout w.
Proof.
  unfold jit_trace. rewrite bind_run.
  destruct (trace_once m x w) as [[g|e] w1] eqn:E1; [|discriminate].
  apply trace_once_ok in E1 as (-> & _ & Hf1 & Hu1 & Ho1).
  rewrite bind_run.
  destruct (trace_once m x w1) as [[g'|e] w2] eqn:E2; [|discriminate].
  apply trace_once_ok in E2 as (-> & _ & Hf2 & Hu2 & Ho2).
  rewrite bool_decide_true by reflexivity. cbn [negb].
  rewrite bind_run. unfold ScriptModule_forward. cbn [graph].
  rewrite run_graph_forward.
  destruct (forward_run m x w2) as (_ & _ & Hf3 & Hu3 & Ho3).
  destruct (forward m x w2) as [[y|e] w3]; [|discriminate].
  rewrite bind_run.
  destruct (forward_run m x w3) as (_ & _ & Hf4 & Hu4 & Ho4).
  destruct (forward m x w3) as [[y'|e] w4]; [|discriminate].
  intros [= <- <-]. simpl in *. repeat split; congruence.
Qed.

Lemma jit_trace_returns m x w :
  well_formed m -> has_shape 1 10 x ->
  exists w', jit_trace m x w = (Ok (mkScriptModule (graph_of m)), w').
Proof.
  intros Hm Hx. unfold jit_trace. rewrite bind_run.
  destruct (trace_once_returns m x w Hm Hx) as (w1 & ->). rewrite bind_run.
  destruct (trace_once_returns m x w1 Hm Hx) as (w2 & ->).
  rewrite bool_decide_true by reflexivity. cbn [negb].
  rewrite bind_run. unfold ScriptModule_forward. cbn [graph].
  rewrite run_graph_forward.
  destruct (forward_returns m 1 x w2 Hm Hx) as (y & Ey & _).
  destruct (forward m x w2) as [r w3]. simpl in Ey. subst r.
  rewrite bind_run.
  destruct (forward_returns m 1 x w3 Hm Hx) as (y' & Ey' & _).
  destruct (forward m x w3) as [r w4]. simpl in Ey'. subst r.
  eauto.
Qed.

(** ** The run of the script *)

Lemma count_parameters_well_formed m :
  well_formed m -> count_parameters m = 897%nat.
Proof.
  intros (HW1 & Hb1 & HW2 & Hb2 & HW3 & Hb3 & _).
  unfold count_parameters, parameters, state_dict, Linear_state_dict. simpl.
  unfold numel1.
  rewrite (numel2_shape _ _ _ HW1), (numel2_shape _ _ _ HW2), (numel2_shape _ _ _ HW3).
  rewrite Hb1, Hb2, Hb3. reflexivity.
Qed.

Lemma write_file_run path f w :
  write_file path f w =
  if bool_decide (path ∈ unwritable w) then (Raise (OSError path), w)
  else (Ok tt, set_fs (<[path := f]> (fs w)) w).
Proof. reflexivity. Qed.

(** The run of the script, statement by statement. *)
Lemma main_unfold w :
  main w =
  match __init__ w with
  | (Raise e, w1) => (Raise e, w1)
  | (Ok m, w1) =>
      if bool_decide (pth_path ∈ unwritable w1) then (Raise (OSError pth_path), w1)
      else
        match sample_matrix normal_ 1 10
                (set_fs (<[pth_path := PickledStateDict (state_dict m)]> (fs w1)) w1) with
        | (Raise e, w2) => (Raise e, w2)
        | (Ok x, w2) =>
            match jit_trace m x w2 with
            | (Raise e, w3) => (Raise e, w3)
            | (Ok t, w3) =>
                if bool_decide (traced_path ∈ unwritable w3)
                then (Raise (OSError traced_path), w3)
                else
                  (Ok (mkLocals (Some m) (Some x) (Some t)),
                   set_stdout
                     (stdout w3 ++ [done_line; parameters_line (count_parameters m)])
                     (set_fs (<[traced_path := ScriptModuleArchive (graph t)]> (fs w3)) w3))
            end
        end
  end.
Proof.
  unfold main, script.
  cbv [run exec no_locals mbind Py_bind bind ret raise var torch_save
       ScriptModule_save write_file print modify model example_input traced_model].
  destruct (__init__ w) as [[m|e] w1]; [|reflexivity].
  destruct (bool_decide (pth_path ∈ unwritable w1)); [reflexivity|].
  destruct (sample_matrix normal_ 1 10 _) as [[x|e] w2]; [|reflexivity].
  destruct (jit_trace m x w2) as [[t|e] w3]; [|reflexivity].
  destruct (bool_decide (traced_path ∈ unwritable w3)); [reflexivity|].
  unfold set_stdout, set_fs. cbn [stdout gen tracer fs unwritable].
  rewrite <- app_assoc. reflexivity.
Qed.

(** The three ways the script can end.  The constructor, the example
    input and the trace never raise, so only the two writes can, and
    the first write is attempted before the second. *)
Lemma main_cases w :
  exists m w1 x,
    __init__ w = (Ok m, w1) /\ well_formed m /\ in_training_mode m /\
    default_initialized m /\ has_shape 1 10 x /\
    unwritable (snd (main w)) = unwritable w /\
    if bool_decide (pth_path ∈ unwritable w) then
      fst (main w) = Raise (OSError pth_path) /\
      fs (snd (main w)) = fs w /\
      stdout (snd (main w)) = stdout w
    else if bool_decide (traced_path ∈ unwritable w) then
      fst (main w) = Raise (OSError traced_path) /\
      fs (snd (main w)) = <[pth_path := PickledStateDict (state_dict m)]> (fs w) /\
      stdout (snd (main w)) = stdout w
    else
      fst (main w) =
        Ok (mkLocals (Some m) (Some x) (Some (mkScriptModule (graph_of m)))) /\
      fs (snd (main w)) =
        <[traced_path := ScriptModuleArchive (graph_of m)]>
          (<[pth_path := PickledStateDict (state_dict m)]> (fs w)) /\
      stdout (snd (main w)) = stdout w ++ [done_line; parameters_line 897].
Proof.
  destruct (init_spec w) as (m & w1 & Einit & Hwf & Htr & Hdi & (Ht1 & Hf1 & Hu1 & Ho1)).
  destruct (sample_matrix_spec (fun _ => True) normal_ (fun _ => I) 1 10
              (set_fs (<[pth_path := PickledStateDict (state_dict m)]> (fs w1)) w1))
    as (x & w2 & Ex & Hx & _ & (Ht2 & Hf2 & Hu2 & Ho2)).
  destruct (jit_trace_returns m x w2 Hwf Hx) as (w3 & Et).
  pose proof (jit_trace_ok m x w2 _ w3 Et) as (_ & Hf3 & Hu3 & Ho3).
  simpl in Hf2, Hu2, Ho2.
  exists m, w1, x. repeat (split; [assumption|]).
  rewrite main_unfold, Einit, Hu1, Ex, Et.
  assert (Eu : unwritable w3 = unwritable w) by congruence. rewrite Eu.
  rewrite (count_parameters_well_formed m Hwf).
  destruct (bool_decide (pth_path ∈ unwritable w)); [simpl; auto|].
  destruct (bool_decide (traced_path ∈ unwritable w)); simpl.
  - repeat split; congruence.
  - repeat split; congruence.
Qed.

(** C3.  In every world the constructor returns a model, and the
    number of scalars in the parameters of that model is
    (10*32+32) + (32*16+16) + (16*1+1) = 897.  The script prints this
    number: it runs to its end exactly when both output paths accept
    writes, and then its output is the confirmation line followed by the
    line ending in 897; when it raises it has printed nothing. *)
Theorem parameter_count_is_897 w :
  (exists m w1,
     __init__ w = (Ok m, w1) /\
     count_parameters m = ((10 * 32 + 32) + (32 * 16 + 16) + (16 * 1 + 1))%nat /\
     count_parameters m = 897%nat) /\
  stdout (snd (main w)) =
    (if is_ok (fst (main w))
     then stdout w ++ [done_line; "  - Paramètres: 897"]
     else stdout w) /\
  is_ok (fst (main w)) =
    negb (bool_decide (pth_path ∈ unwritable w)) &&
    negb (bool_decide (traced_path ∈ unwritable w)) /\
  (pth_path ∉ unwritable w -> traced_path ∉ unwritable w ->
   is_ok (fst (main w)) = true /\
   stdout (snd (main w)) = stdout w ++ [done_line; "  - Paramètres: 897"]).
Proof.
  destruct (main_cases w) as (m & w1 & x & Einit & Hwf & _ & _ & _ & _ & Hcases).
  split; [|split; [|split]].
  - exists m, w1. rewrite (count_parameters_well_formed m Hwf). auto.
  - destruct (bool_decide (pth_path ∈ unwritable w)).
    { destruct Hcases as (-> & _ & ->). reflexivity. }
    destruct (bool_decide (traced_path ∈ unwritable w)).
    { destruct Hcases as (-> & _ & ->). reflexivity. }
    destruct Hcases as (-> & _ & ->). reflexivity.
  - destruct (bool_decide (pth_path ∈ unwritable w)).
    { destruct Hcases as (-> & _). reflexivity. }
    destruct (bool_decide (traced_path ∈ unwritable w)).
    { destruct Hcases as (-> & _). reflexivity. }
    destruct Hcases as (-> & _). reflexivity.
  - intros Hp Ht.
    rewrite (bool_decide_false _ Hp), (bool_decide_false _ Ht) in Hcases.
    destruct Hcases as (-> & _ & ->). auto.
Qed.

(** Statements run in order, and a statement that raises ends the run
    with its exception and the world as the statement left it. *)
Lemma run_cons s ss (l : Locals) w :
  run (s :: ss) l w =
  match exec s l w with
  | (Ok l', w') => run ss l' w'
  | (Raise e, w') => (Raise e, w')
  end.
Proof. reflexivity. Qed.

(** C9.  No statement of the script catches an exception: whatever a
    statement raises ends the run, with no later statement executed.
    The raw-parameter file is written before the traced graph: when the
    first write fails nothing is written at all and the process exits
    with status 1; when the first write succeeds and the second fails,
    the process exits with status 1, the raw-parameter file holds the
    state dict of the model, and the traced path holds whatever it held
    before the run (nothing is written there, nothing is cleaned up). *)
Theorem writes_in_order_and_failures_propagate w :
  (forall s ss (l : Locals) w0,
     match exec s l w0 with
     | (Raise e, w') => run (s :: ss) l w0 = (Raise e, w')
     | (Ok l', w') => run (s :: ss) l w0 = run ss l' w'
     end) /\
  exists m w1,
    __init__ w = (Ok m, w1) /\
    if bool_decide (pth_path ∈ unwritable w) then
      fst (main w) = Raise (OSError pth_path) /\
      exit_status (fst (main w)) = 1 /\
      fs (snd (main w)) = fs w
    else if bool_decide (traced_path ∈ unwritable w) then
      fst (main w) = Raise (OSError traced_path) /\
      exit_status (fst (main w)) = 1 /\
      fs (snd (main w)) !! pth_path = Some (PickledStateDict (state_dict m)) /\
      fs (snd (main w)) !! traced_path = fs w !! traced_path
    else
      exit_status (fst (main w)) = 0 /\
      fs (snd (main w)) !! pth_path = Some (PickledStateDict (state_dict m)) /\
      fs (snd (main w)) !! traced_path = Some (ScriptModuleArchive (graph_of m)).
Proof.
  split.
  { intros s ss l w0. rewrite run_cons. destruct (exec s l w0) as [[l'|e] w']; reflexivity. }
  destruct (main_cases w) as (m & w1 & x & Einit & _ & _ & _ & _ & _ & Hcases).
  exists m, w1. split; [exact Einit|].
  assert (Hne : pth_path <> traced_path) by discriminate.
  destruct (bool_decide (pth_path ∈ unwritable w)).
  { destruct Hcases as (-> & -> & _). auto. }
  destruct (bool_decide (traced_path ∈ unwritable w)).
  { destruct Hcases as (-> & -> & _).
    rewrite lookup_insert_eq, lookup_insert_ne by exact Hne. auto. }
  destruct Hcases as (-> & -> & _).
  rewrite lookup_insert_eq, lookup_insert_ne, lookup_insert_eq by auto. auto.
Qed.

(** ** Training mode during the run *)

(** No statement other than the construction binds [model], and no
    statement changes the module it is bound to. *)
Lemma exec_preserves_training_mode s (l l' : Locals) w w' :
  model_in_training_mode l -> exec s l w = (Ok l', w') -> model_in_training_mode l'.
Proof.
  intros Hl. unfold model_in_training_mode in *.
  destruct s;
    cbv [exec mbind Py_bind bind ret raise var torch_save ScriptModule_save
         write_file print modify].
  - destruct (init_spec w) as (m & w1 & -> & _ & Htr & _).
    intros [= <- <-]. exact Htr.
  - destruct (model l) as [m|] eqn:Em; [|discriminate].
    destruct (bool_decide _); [discriminate|]. intros [= <- <-]. rewrite Em. exact Hl.
  - destruct (sample_matrix normal_ 1 10 w) as [[x|e] w1]; [|discriminate].
    intros [= <- <-]. exact Hl.
  - destruct (model l) as [m|] eqn:Em; [|discriminate].
    destruct (example_input l); [|discriminate].
    destruct (jit_trace m _ w) as [[t|e] w1]; [|discriminate].
    intros [= <- <-]. exact Hl.
  - destruct (traced_model l); [|discriminate].
    destruct (bool_decide _); [discriminate|]. intros [= <- <-]. exact Hl.
  - intros [= <- <-]. exact Hl.
  - destruct (model l) as [m|] eqn:Em; [|discriminate].
    intros [= <- <-]. rewrite Em. exact Hl.
Qed.

Lemma run_preserves_training_mode ss (l l' : Locals) w w' :
  model_in_training_mode l -> run ss l w = (Ok l', w') -> model_in_training_mode l'.
Proof.
  revert l w. induction ss as [|s ss IH]; intros l w Hl.
  - intros [= <- <-]. exact Hl.
  - rewrite run_cons. destruct (exec s l w) as [[l1|e] w1] eqn:Es; [|discriminate].
    apply IH. eapply exec_preserves_training_mode; eauto.
Qed.

(** In training mode, with the probability of the class, the dropout
    stage on a non-empty tensor draws one Bernoulli sample per element
    and multiplies by the rescaled mask. *)
Lemma dropout_value_train x (g : G) :
  dropout_value x (2 # 10) true g =
  if Nat.eqb (numel2 x) 0 then (Ok x, g)
  else (Ok (mul_noise (2 # 10) x (fst (bernoulli_like (1 - (2 # 10)) x g))),
        snd (bernoulli_like (1 - (2 # 10)) x g)).
Proof.
  unfold dropout_value. simpl.
  destruct (Nat.eqb (numel2 x) 0); [reflexivity|].
  destruct (bernoulli_like _ x g); reflexivity.
Qed.

(** C10.  After every prefix of the script that has run without
    raising, the variable [model] is unbound or bound to a module whose
    flags all say training: the constructor leaves the module in
    training mode and no statement changes it.  So the dropout stage of
    the model the script traces draws a mask (it is not the identity),
    the graph of the traced module records the dropout operator with
    its training argument set, and that graph is what the script writes
    to the traced file. *)
Theorem model_stays_in_training_mode w :
  (forall n,
     match fst (run (take n script) no_locals w) with
     | Ok l => model_in_training_mode l
     | Raise _ => True
     end) /\
  exists m w1,
    __init__ w = (Ok m, w1) /\ in_training_mode m /\
    graph_of m !! 2%nat = Some (aten_dropout (2 # 10) true) /\
    (forall h g,
       dropout_value h (Dropout.p (dropout m)) (Dropout.training (dropout m)) g =
       if Nat.eqb (numel2 h) 0 then (Ok h, g)
       else (Ok (mul_noise (2 # 10) h (fst (bernoulli_like (1 - (2 # 10)) h g))),
             snd (bernoulli_like (1 - (2 # 10)) h g))) /\
    match fst (main w) with
    | Ok l =>
        model l = Some m /\
        traced_model l = Some (mkScriptModule (graph_of m)) /\
        fs (snd (main w)) !! traced_path = Some (ScriptModuleArchive (graph_of m))
    | Raise e => e = OSError pth_path \/ e = OSError traced_path
    end.
Proof.
  split.
  { intros n.
    destruct (run (take n script) no_locals w) as [[l|e] w'] eqn:Er; simpl; [|exact I].
    eapply run_preserves_training_mode; [|exact Er]. exact I. }
  destruct (main_cases w) as (m & w1 & x & Einit & Hwf & Htr & _ & _ & _ & Hcases).
  exists m, w1. split; [exact Einit|]. split; [exact Htr|].
  destruct Hwf as (_ & _ & _ & _ & _ & _ & Hp).
  destruct Htr as (_ & _ & _ & _ & _ & Hd).
  split; [|split].
  - unfold graph_of. rewrite Hp, Hd. reflexivity.
  - intros h g. rewrite Hp, Hd. apply dropout_value_train.
  - destruct (bool_decide (pth_path ∈ unwritable w)).
    { destruct Hcases as (-> & _). auto. }
    destruct (bool_decide (traced_path ∈ unwritable w)).
    { destruct Hcases as (-> & _). auto. }
    destruct Hcases as (-> & -> & _). simpl.
    rewrite lookup_insert_eq. auto.
Qed.

(** ** Saving and loading the parameters *)

(** The forward pass reads the weights, the biases and the two
    attributes of the dropout stage, and nothing else of the model. *)
Lemma forward_ext m1 m2 x w :
  Linear.weight (fc1 m1) = Linear.weight (fc1 m2) ->
  Linear.bias (fc1 m1) = Linear.bias (fc1 m2) ->
  Linear.weight (fc2 m1) = Linear.weight (fc2 m2) ->
  Linear.bias (fc2 m1) = Linear.bias (fc2 m2) ->
  Linear.weight (fc3 m1) = Linear.weight (fc3 m2) ->
  Linear.bias (fc3 m1) = Linear.bias (fc3 m2) ->
  Dropout.p (dropout m1) = Dropout.p (dropout m2) ->
  Dropout.training (dropout m1) = Dropout.training (dropout m2) ->
  forward m1 x w = forward m2 x w.
Proof.
  intros H1 H2 H3 H4 H5 H6 H7 H8.
  unfold forward, Linear_forward, ReLU_forward, Dropout_forward.
  rewrite H1, H2, H3, H4, H5, H6, H7, H8. reflexivity.
Qed.

Lemma shape_has_shape r c (t : matrix) :
  has_shape (S r) c t -> shape (Tensor2 t) = [S r; c].
Proof.
  intros [Hl HF]. destruct t as [|row t]; [discriminate|].
  inversion HF; subst. simpl in *. congruence.
Qed.

Lemma Linear_load_found prefix l sd W b o i :
  od_get (prefix +:+ "weight") sd = Some (Tensor2 W) ->
  od_get (prefix +:+ "bias") sd = Some (Tensor1 b) ->
  has_shape (S o) i W -> length b = S o ->
  has_shape (S o) i (Linear.weight l) -> length (Linear.bias l) = S o ->
  Linear_load prefix l sd =
  Some (Linear.mk (Linear.in_features l) (Linear.out_features l) W b
          (Linear.training l)).
Proof.
  intros EW Eb HW Hb HW' Hb'. unfold Linear_load. rewrite EW, Eb.
  rewrite (shape_has_shape _ _ _ HW), (shape_has_shape _ _ _ HW').
  cbn [shape]. rewrite Hb, Hb'.
  rewrite !bool_decide_true by reflexivity. reflexivity.
Qed.

(** Loading the state dict of one model of the class into another
    replaces the six parameter tensors and keeps the rest. *)
Lemma load_state_dict_state_dict m fresh w :
  well_formed m -> well_formed fresh ->
  load_state_dict fresh (state_dict m) w =
  (Ok (mkPredictor
         (Linear.mk (Linear.in_features (fc1 fresh)) (Linear.out_features (fc1 fresh))
            (Linear.weight (fc1 m)) (Linear.bias (fc1 m)) (Linear.training (fc1 fresh)))
         (Linear.mk (Linear.in_features (fc2 fresh)) (Linear.out_features (fc2 fresh))
            (Linear.weight (fc2 m)) (Linear.bias (fc2 m)) (Linear.training (fc2 fresh)))
         (Linear.mk (Linear.in_features (fc3 fresh)) (Linear.out_features (fc3 fresh))
            (Linear.weight (fc3 m)) (Linear.bias (fc3 m)) (Linear.training (fc3 fresh)))
         (relu fresh) (dropout fresh) (training fresh)), w).
Proof.
  intros (HW1 & Hb1 & HW2 & Hb2 & HW3 & Hb3 & _) (FW1 & Fb1 & FW2 & Fb2 & FW3 & Fb3 & _).
  unfold load_state_dict.
  change (forallb _ (state_dict m)) with true. cbn [negb].
  rewrite (Linear_load_found "fc1." _ (state_dict m) _ _ _ _
             eq_refl eq_refl HW1 Hb1 FW1 Fb1).
  rewrite (Linear_load_found "fc2." _ (state_dict m) _ _ _ _
             eq_refl eq_refl HW2 Hb2 FW2 Fb2).
  rewrite (Linear_load_found "fc3." _ (state_dict m) _ _ _ _
             eq_refl eq_refl HW3 Hb3 FW3 Fb3).
  reflexivity.
Qed.

(** C4.  Let [m] be a model of the class and [fresh] another one (a
    newly constructed one, say).  Saving the state dict of [m] to a
    writable path, loading the file and loading its content into [fresh]
    succeeds, and the resulting model computes what [m] computes: in
    either mode, on every input and from every generator state, its
    forward pass returns the same tensor, bit for bit, and has the same
    effects. *)
Theorem state_dict_round_trip m fresh path w :
  well_formed m -> well_formed fresh -> path ∉ unwritable w ->
  exists loaded w',
    (torch_save (state_dict m) path ;;
     sd ← torch_load path ;
     load_state_dict fresh sd) w = (Ok loaded, w') /\
    well_formed loaded /\
    state_dict loaded = state_dict m /\
    forall mode x w'', forward (train mode loaded) x w'' = forward (train mode m) x w''.
Proof.
  intros Hm Hf Hw.
  rewrite bind_run. unfold torch_save. rewrite write_file_run.
  rewrite bool_decide_false by exact Hw.
  rewrite bind_run. unfold torch_load at 1. cbn [fs set_fs].
  rewrite lookup_insert_eq.
  rewrite (load_state_dict_state_dict m fresh _ Hm Hf).
  eexists _, _. split; [reflexivity|].
  split; [|split].
  - destruct Hm as (? & ? & ? & ? & ? & ? & ?), Hf as (? & ? & ? & ? & ? & ? & ?).
    unfold well_formed. simpl. tauto.
  - reflexivity.
  - intros mode x w''. apply forward_ext; try reflexivity.
    simpl. destruct Hm as (_ & _ & _ & _ & _ & _ & ->),
      Hf as (_ & _ & _ & _ & _ & _ & ->). reflexivity.
Qed.

(** C1, as amended.  When the script has run to its end, the graph in
    the traced file is the graph of the model in training mode, the
    mode it was traced in.  Loaded and run in any world that has the
    file, on the example input or on any other input, it does what the
    training-mode forward pass of the original model does from the same
    generator state: the same output, the same draws. *)
Theorem traced_graph_runs_training_mode_forward w :
  is_ok (fst (main w)) = true ->
  exists l m x0,
    fst (main w) = Ok l /\ model l = Some m /\ example_input l = Some x0 /\
    has_shape 1 10 x0 /\ in_training_mode m /\
    forall x w2,
      (t ← jit_load traced_path ; ScriptModule_forward t x)
        (set_fs (fs (snd (main w))) w2) =
      forward m x (set_fs (fs (snd (main w))) w2).
Proof.
  intros Hok.
  destruct (main_cases w) as (m & w1 & x0 & _ & _ & Htr & _ & Hx & _ & Hcases).
  destruct (bool_decide (pth_path ∈ unwritable w)).
  { destruct Hcases as (E & _). rewrite E in Hok. discriminate. }
  destruct (bool_decide (traced_path ∈ unwritable w)).
  { destruct Hcases as (E & _). rewrite E in Hok. discriminate. }
  destruct Hcases as (E & Efs & _).
  eexists _, m, x0. split; [exact E|]. repeat (split; [first [reflexivity|assumption]|]).
  intros x w2. rewrite bind_run. unfold jit_load. cbn [fs set_fs].
  rewrite Efs, lookup_insert_eq. unfold ScriptModule_forward. cbn [graph].
  apply run_graph_forward.
Qed.

(** ** Evaluation mode *)

(** Outside training the dropout stage only checks its probability;
    it neither reads nor advances the generator. *)
Lemma dropout_value_eval x p (g : G) :
  dropout_value x p false g =
  (if valid_probability p then Ok x
   else Raise (ValueError "dropout probability has to be between 0 and 1"), g).
Proof.
  unfold dropout_value.
  destruct (valid_probability p); simpl; [|reflexivity].
  rewrite orb_true_r. reflexivity.
Qed.

Lemma forward_value_eval m x (g : G) :
  forward_value (eval m) x g =
  (match affine (fc1 m) x with
   | Raise e => Raise e
   | Ok h1 =>
       if valid_probability (Dropout.p (dropout m)) then
         match affine (fc2 m) (rectify h1) with
         | Raise e => Raise e
         | Ok h2 => affine (fc3 m) (rectify h2)
         end
       else Raise (ValueError "dropout probability has to be between 0 and 1")
   end, g).
Proof.
  unfold forward_value, affine. simpl.
  destruct (linear_value x _ _) as [h1|e]; [|reflexivity].
  rewrite dropout_value_eval.
  destruct (valid_probability _); [|reflexivity].
  destruct (linear_value (rectify h1) _ _); reflexivity.
Qed.

(** C2.  For every model whose dropout probability passed the check of
    [nn.Dropout], every input and every world, the forward pass of the
    model in evaluation mode returns layer 3 applied to the rectified
    output of layer 2 applied to the rectified output of layer 1, as the
    specification words it, and leaves the generator where it was; the
    dropout stage itself returns its input unchanged. *)
Theorem forward_eval_is_layer_composition m x w :
  valid_probability (Dropout.p (dropout m)) = true ->
  fst (forward (eval m) x w) = spec_forward_eval m x /\
  gen (snd (forward (eval m) x w)) = gen w /\
  (forall h w', fst (Dropout_forward (dropout (eval m)) h w') = Ok h /\
                gen (snd (Dropout_forward (dropout (eval m)) h w')) = gen w').
Proof.
  intros Hp.
  destruct (forward_run (eval m) x w) as (Hv & Hg & _).
  rewrite Hv, Hg, forward_value_eval, Hp. unfold spec_forward_eval.
  split; [|split]; [destruct (affine (fc1 m) x); reflexivity | reflexivity |].
  intros h w'. unfold Dropout_forward. rewrite F_dropout_run. simpl.
  rewrite dropout_value_eval, Hp. auto.
Qed.

(** C5.  In evaluation mode the output of the forward pass is a
    function of the weights and the input alone: it is the same in any
    two worlds, and a second call made right after a first one returns
    the same tensor, element for element. *)
Theorem forward_eval_deterministic m x w1 w2 :
  fst (forward (eval m) x w1) = fst (forward (eval m) x w2) /\
  fst (forward (eval m) x (snd (forward (eval m) x w1))) =
  fst (forward (eval m) x w1).
Proof.
  destruct (forward_run (eval m) x w1) as (H1 & _).
  destruct (forward_run (eval m) x w2) as (H2 & _).
  destruct (forward_run (eval m) x (snd (forward (eval m) x w1))) as (H3 & _).
  rewrite H1, H2, H3, !forward_value_eval. auto.
Qed.

(** ** Finite output on the zero input *)

Lemma in_range_small (mb : positive) (eb : Z) (v : F32.t) :
  in_range (S754_finite true mb eb) (S754_finite false mb eb) v -> small eb v.
Proof.
  intros (Hv & Hlo & Hhi).
  destruct v as [s|s| |s m e]; simpl.
  - exact I.
  - destruct s; discriminate.
  - discriminate.
  - unfold F32.valid, valid_binary, bounded, canonical_mantissa, fexp, emin in Hv.
    apply andb_true_iff in Hv as [Hc _]. apply Z.eqb_eq in Hc.
    split; [unfold F32.prec, F32.emax in Hc; lia|].
    unfold F32.leb, SFleb, SFcompare in Hlo, Hhi.
    destruct s.
    + destruct (Z.compare_spec eb e); try discriminate; lia.
    + destruct (Z.compare_spec e eb); try discriminate; lia.
Qed.

Lemma init_bound_exponent :
  (exists mb, init_bound 10 = S754_finite false mb (-25)) /\
  (exists mb, init_bound 32 = S754_finite false mb (-26)) /\
  (exists mb, init_bound 16 = S754_finite false mb (-25)).
Proof. repeat split; eexists; vm_compute; reflexivity. Qed.

Lemma relu1_small k (v : F32.t) : small k v -> small k (relu1 v).
Proof.
  intros Hv. unfold relu1.
  destruct (F32.ltb F32.zero v); [exact Hv|].
  destruct (F32.is_nan v); [exact Hv|exact I].
Qed.

Lemma rectify_small k (x : matrix) :
  Forall (Forall (small k)) x -> Forall (Forall (small k)) (rectify x).
Proof.
  intros Hx. unfold rectify. apply Forall_map.
  eapply Forall_impl; [exact Hx|]. intros row Hrow. simpl.
  apply Forall_map. eapply Forall_impl; [exact Hrow|]. intros v. apply relu1_small.
Qed.

(** Accumulating [n] products of values below [2^(a+24)] and
    [2^(b+24)] raises the exponent bound by two per addition at most. *)
Lemma fold_dot_small a b (l : list (F32.t * F32.t)) :
  Forall (fun ab => small a (fst ab) /\ small b (snd ab)) l ->
  forall c acc,
    small c acc -> a + b + 25 <= c -> -148 <= a + b + 25 ->
    c + 2 * Z.of_nat (length l) <= 104 ->
    small (c + 2 * Z.of_nat (length l))
      (fold_left (fun acc ab => F32.add acc (F32.mul (fst ab) (snd ab))) l acc).
Proof.
  induction 1 as [|[u v] l [Hu Hv] Hl IH]; intros c acc Hacc Hc Hlo Hhi.
  - apply small_mono with c; [simpl; lia|exact Hacc].
  - cbn [fold_left length fst snd] in *. rewrite Nat2Z.inj_succ in *.
    unfold F32.t in *.
    apply small_mono with ((c + 2) + 2 * Z.of_nat (length l)); [lia|].
    apply IH; try lia.
    apply (add_small c); try lia; [exact Hacc|].
    apply small_mono with (a + b + 25); [lia|].
    apply (mul_small a b); try assumption; lia.
Qed.

Lemma dot_small a b k (r w : vector) :
  Forall (small a) r -> Forall (small b) w ->
  -148 <= a + b + 25 -> a + b + 25 + 2 * Z.of_nat (length r) <= k -> k <= 104 ->
  small k (dot r w).
Proof.
  intros Hr Hw Hlo Hk Hhi. unfold dot.
  apply small_mono with (a + b + 25 + 2 * Z.of_nat (length (combine r w))).
  { rewrite length_combine. lia. }
  apply (fold_dot_small a b).
  - clear Hk. revert w Hw.
    induction Hr as [|u r Hu Hr IH]; intros w Hw; [constructor|].
    destruct Hw as [|v w Hv Hw]; [constructor|]. simpl. constructor; auto.
  - exact I.
  - lia.
  - lia.
  - rewrite length_combine. lia.
Qed.

Lemma linear_row_small a b k (W : matrix) (bias r : vector) :
  Forall (small a) r -> Forall (Forall (small b)) W -> Forall (small b) bias ->
  -148 <= a + b + 25 -> a + b + 25 + 2 * Z.of_nat (length r) <= k -> b <= k ->
  -150 <= k -> k + 2 <= 104 ->
  Forall (small (k + 2)) (linear_row W bias r).
Proof.
  intros Hr HW Hb Hlo Hk Hbk Hk' Hhi. unfold linear_row. apply Forall_map.
  revert bias Hb. induction HW as [|wr W Hwr HW IH]; intros bias Hb; [constructor|].
  destruct Hb as [|bj bias Hbj Hb]; [constructor|]. simpl. constructor; [|auto].
  apply add_small; try lia.
  - apply (dot_small a b); try assumption; lia.
  - apply small_mono with b; assumption.
Qed.

Lemma layer_small a b k i (W x : matrix) (bias : vector) :
  Forall (Forall (small a)) x -> Forall (fun row => length row = i) x ->
  Forall (Forall (small b)) W -> Forall (small b) bias ->
  -148 <= a + b + 25 -> a + b + 25 + 2 * Z.of_nat i <= k -> b <= k ->
  -150 <= k -> k + 2 <= 104 ->
  Forall (Forall (small (k + 2))) (map (linear_row W bias) x).
Proof.
  intros Hx Hi HW Hb Hlo Hk Hbk Hk' Hhi. apply Forall_map.
  induction Hx as [|r x Hr Hx IH]; [constructor|].
  inversion Hi as [|? ? Hlen Hi']; subst. constructor; [|auto].
  simpl. apply (linear_row_small a b); assumption.
Qed.

Lemma in_range_small_vector mb eb (l : vector) :
  Forall (in_range (F32.opp (S754_finite false mb eb)) (S754_finite false mb eb)) l ->
  Forall (small eb) l.
Proof.
  intros Hl. eapply Forall_impl; [exact Hl|]. intros v. apply in_range_small.
Qed.

Lemma in_range_small_matrix mb eb (t : matrix) :
  Forall (Forall (in_range (F32.opp (S754_finite false mb eb))
                           (S754_finite false mb eb))) t ->
  Forall (Forall (small eb)) t.
Proof.
  intros Ht. eapply Forall_impl; [exact Ht|]. intros l. apply in_range_small_vector.
Qed.

Lemma default_initialized_small m :
  default_initialized m ->
  Forall (Forall (small (-25))) (Linear.weight (fc1 m)) /\
  Forall (small (-25)) (Linear.bias (fc1 m)) /\
  Forall (Forall (small (-26))) (Linear.weight (fc2 m)) /\
  Forall (small (-26)) (Linear.bias (fc2 m)) /\
  Forall (Forall (small (-25))) (Linear.weight (fc3 m)) /\
  Forall (small (-25)) (Linear.bias (fc3 m)).
Proof.
  intros (E1 & E2 & E3 & [HW1 Hb1] & [HW2 Hb2] & [HW3 Hb3]).
  rewrite E1 in HW1, Hb1. rewrite E2 in HW2, Hb2. rewrite E3 in HW3, Hb3.
  destruct init_bound_exponent as ((m1 & B1) & (m2 & B2) & (m3 & B3)).
  rewrite B1 in HW1, Hb1. rewrite B2 in HW2, Hb2. rewrite B3 in HW3, Hb3.
  pose proof (in_range_small_matrix _ _ _ HW1). pose proof (in_range_small_vector _ _ _ Hb1).
  pose proof (in_range_small_matrix _ _ _ HW2). pose proof (in_range_small_vector _ _ _ Hb2).
  pose proof (in_range_small_matrix _ _ _ HW3). pose proof (in_range_small_vector _ _ _ Hb3).
  tauto.
Qed.

Lemma Forall_repeat {A} (P : A -> Prop) (a : A) (n : nat) :
  P a -> Forall P (repeat a n).
Proof. intros Ha. induction n; simpl; constructor; assumption. Qed.

Lemma zeros_small k r c : Forall (Forall (small k)) (zeros r c).
Proof. unfold zeros. apply Forall_repeat, Forall_repeat. exact I. Qed.

Lemma zeros_shape r c : has_shape r c (zeros r c).
Proof.
  unfold has_shape, zeros. rewrite repeat_length. split; [reflexivity|].
  apply Forall_repeat, repeat_length.
Qed.

(** On the zero input, a model of the class whose parameters lie within
    the initialisation bounds returns one finite number in evaluation
    mode. *)
Lemma forward_value_zero_finite m (g : G) :
  well_formed m -> default_initialized m ->
  exists y, fst (forward_value (eval m) (zeros 1 10) g) = Ok [[y]] /\
            small 76 y /\ F32.is_finite y = true.
Proof.
  intros Hwf Hdi.
  destruct (default_initialized_small m Hdi) as (SW1 & Sb1 & SW2 & Sb2 & SW3 & Sb3).
  destruct Hwf as (HW1 & Hb1 & HW2 & Hb2 & HW3 & Hb3 & Hp).
  rewrite forward_value_eval. cbn [fst]. unfold affine.
  destruct (linear_value_shape 1 32 10 _ _ _ (zeros_shape 1 10) HW1 Hb1) as [E1 S1].
  rewrite E1, Hp. cbn [valid_probability Qle_bool Qnum Qden Z.leb Z.mul Z.compare andb
                      Pos.mul Pos.compare Pos.compare_cont].
  set (h1 := map (linear_row _ _) (zeros 1 10)) in *.
  assert (F1 : Forall (Forall (small (-23))) h1).
  { apply (layer_small (-100) (-25) (-25) 10); try assumption; try lia.
    - apply zeros_small.
    - apply (zeros_shape 1 10). }
  apply rectify_shape in S1. apply rectify_small in F1.
  destruct (linear_value_shape 1 16 32 _ _ _ S1 HW2 Hb2) as [E2 S2].
  rewrite E2.
  set (h2 := map (linear_row _ _) (rectify h1)) in *.
  assert (F2 : Forall (Forall (small 42)) h2).
  { apply (layer_small (-23) (-26) 40 32); try assumption; try lia. apply S1. }
  apply rectify_shape in S2. apply rectify_small in F2.
  destruct (linear_value_shape 1 1 16 _ _ _ S2 HW3 Hb3) as [E3 S3].
  rewrite E3.
  set (h3 := map (linear_row _ _) (rectify h2)) in *.
  assert (F3 : Forall (Forall (small 76)) h3).
  { apply (layer_small 42 (-25) 74 16); try assumption; try lia. apply S2. }
  destruct S3 as [L3 R3].
  destruct h3 as [|row [|? ?]]; try discriminate.
  inversion R3 as [|? ? Lrow _]; subst.
  destruct row as [|y [|? ?]]; try discriminate.
  inversion F3 as [|? ? Frow _]; subst. inversion Frow as [|? ? Hy _]; subst.
  exists y. split; [reflexivity|]. split; [exact Hy|].
  destruct y; simpl in Hy; try tauto; reflexivity.
Qed.

(** C8.  For every model of the class whose parameters lie within the
    bounds the default initialisation draws from (every constructed model
    is one), the forward pass in evaluation mode on the all-zeros tensor
    of shape (1, 10) returns a tensor of shape (1, 1) whose single entry
    is neither a NaN nor an infinity. *)
Theorem forward_zero_input_is_finite m w :
  well_formed m -> default_initialized m ->
  exists y, fst (forward (eval m) (zeros 1 10) w) = Ok [[y]] /\
            has_shape 1 1 [[y]] /\ F32.is_finite y = true.
Proof.
  intros Hwf Hdi. destruct (forward_run (eval m) (zeros 1 10) w) as (-> & _).
  destruct (forward_value_zero_finite m (gen w) Hwf Hdi) as (y & E & _ & Hy).
  exists y. split; [exact E|]. split; [|exact Hy].
  apply has_shapeb_spec. reflexivity.
Qed.

(** ** Training mode *)

(** With probability zero the dropout stage returns its input and does
    not touch the generator, in training mode too. *)
Lemma dropout_value_p0 x p t (g : G) :
  Qeq_bool p 0 = true -> dropout_value x p t g = (Ok x, g).
Proof.
  intros Hp. unfold dropout_value, valid_probability. rewrite Hp.
  apply Qeq_bool_iff in Hp.
  assert (Qle_bool 0 p = true) as -> by (apply Qle_bool_iff; rewrite Hp; apply Qle_refl).
  assert (Qle_bool p 1 = true) as -> by (apply Qle_bool_iff; rewrite Hp; discriminate).
  reflexivity.
Qed.

Lemma forward_p0 m x w1 w2 :
  Qeq_bool (Dropout.p (dropout m)) 0 = true ->
  fst (forward m x w1) = fst (forward m x w2).
Proof.
  intros Hp.
  destruct (forward_run m x w1) as (-> & _), (forward_run m x w2) as (-> & _).
  unfold forward_value.
  destruct (affine (fc1 m) x) as [h1|e]; [|reflexivity].
  rewrite !dropout_value_p0 by exact Hp.
  destruct (affine (fc2 m) (rectify h1)); reflexivity.
Qed.

(** *** A model that shows one element of the mask *)

Lemma fold_dot_zero_row (d : vector) :
  Forall two_valued d ->
  forall n acc, two_valued acc ->
    fold_left (fun acc ab => F32.add acc (F32.mul (fst ab) (snd ab)))
              (combine d (repeat F32.zero n)) acc = acc.
Proof.
  induction 1 as [|v d Hv Hd IH]; intros n acc Hacc; [reflexivity|].
  destruct n as [|n]; [reflexivity|]. cbn [repeat combine fold_left fst snd].
  assert (E : F32.add acc (F32.mul v F32.zero) = acc)
    by (destruct Hv as [-> | ->], Hacc as [-> | ->]; reflexivity).
  rewrite E. apply IH. exact Hacc.
Qed.

Lemma fold_dot_unit_row (d : vector) :
  Forall two_valued d ->
  forall j, (j < length d)%nat ->
    fold_left (fun acc ab => F32.add acc (F32.mul (fst ab) (snd ab)))
              (combine d (unit_row (length d) j)) F32.zero = nth j d F32.zero.
Proof.
  induction 1 as [|v d Hv Hd IH]; intros j Hj; [simpl in Hj; lia|].
  destruct j as [|j]; cbn [length unit_row combine fold_left fst snd nth].
  - assert (E : F32.add F32.zero (F32.mul v F32.one) = v)
      by (destruct Hv as [-> | ->]; reflexivity).
    rewrite E. apply fold_dot_zero_row; assumption.
  - assert (E : F32.add F32.zero (F32.mul v F32.zero) = F32.zero)
      by (destruct Hv as [-> | ->]; reflexivity).
    rewrite E. apply IH. simpl in Hj. lia.
Qed.

Lemma unit_row_length n j : length (unit_row n j) = n.
Proof.
  revert j. induction n as [|n IH]; intros j; [reflexivity|].
  destruct j; simpl; [rewrite repeat_length|rewrite IH]; reflexivity.
Qed.

Lemma two_valued_nth (d : vector) j : Forall two_valued d -> two_valued (nth j d F32.zero).
Proof.
  intros Hd. revert j. induction Hd as [|v d Hv Hd IH]; intros [|j]; simpl; auto;
    right; reflexivity.
Qed.

Lemma dropped_ones (row : list bool) :
  map (fun xk => F32.mul (fst xk) (noise1 (2 # 10) (snd xk)))
      (combine (repeat F32.one (length row)) row) = map dropped_one row.
Proof.
  induction row as [|k row IH]; [reflexivity|].
  cbn [length repeat combine map fst snd]. rewrite IH. f_equal.
  destruct k; vm_compute; reflexivity.
Qed.

Lemma dropped_ones_two_valued (row : list bool) : Forall two_valued (map dropped_one row).
Proof.
  apply Forall_map. apply Forall_true. intros [|]; [left|right]; reflexivity.
Qed.

Lemma nth_dropped_one (row : list bool) j :
  (j < length row)%nat -> nth j (map dropped_one row) F32.zero = dropped_one (nth j row false).
Proof.
  revert j. induction row as [|k row IH]; intros j Hj; [simpl in Hj; lia|].
  destruct j; simpl; [reflexivity|]. apply IH. simpl in Hj. lia.
Qed.

Lemma probe_second_layer_shape j :
  has_shape 16 32 (unit_row 32 j :: repeat (repeat F32.zero 32) 15).
Proof.
  split; [reflexivity|]. constructor; [apply unit_row_length|].
  apply (proj2 (proj1 (has_shapeb_spec 15 32 (repeat (repeat F32.zero 32) 15)) eq_refl)).
Qed.

Lemma probe_model_well_formed j : well_formed (probe_model j).
Proof.
  unfold well_formed, probe_model. cbn [fc1 fc2 fc3 dropout Linear.weight Linear.bias Dropout.p].
  split; [apply has_shapeb_spec; reflexivity|]. split; [reflexivity|].
  split; [apply probe_second_layer_shape|]. split; [reflexivity|].
  split; [apply has_shapeb_spec; reflexivity|]. split; reflexivity.
Qed.

Lemma probe_model_in_training_mode j : in_training_mode (probe_model j).
Proof. repeat split. Qed.

(** The second and third layers of the probe on a two-valued row [d]
    of 32 activations return activation [j]. *)
Lemma probe_tail (d : vector) j :
  Forall two_valued d -> length d = 32%nat -> (j < 32)%nat ->
  exists h2,
    affine (fc2 (probe_model j)) [d] = Ok h2 /\
    affine (fc3 (probe_model j)) (rectify h2) = Ok [[nth j d F32.zero]].
Proof.
  intros Hd Ld Hj.
  assert (Hv : two_valued (nth j d F32.zero)) by (apply two_valued_nth; exact Hd).
  assert (E0 : dot d (repeat F32.zero 32) = F32.zero).
  { unfold dot. apply fold_dot_zero_row; [exact Hd|right; reflexivity]. }
  assert (Ej : dot d (unit_row 32 j) = nth j d F32.zero).
  { unfold dot. rewrite <- Ld. apply fold_dot_unit_row; [exact Hd|lia]. }
  unfold affine, probe_model. cbn [fc2 fc3 Linear.weight Linear.bias].
  assert (S1 : has_shape 1 32 [d]) by (split; [reflexivity|repeat constructor; exact Ld]).
  pose proof (probe_second_layer_shape j) as S2.
  destruct (linear_value_shape 1 16 32 [d] _ (repeat F32.zero 16) S1 S2 eq_refl) as [-> _].
  eexists. split; [reflexivity|].
  set (zr := repeat F32.zero 32) in *.
  cbn [map linear_row repeat combine fst snd]. rewrite E0, Ej.
  assert (Ea : F32.add (nth j d F32.zero) F32.zero = nth j d F32.zero)
    by (destruct Hv as [-> | ->]; reflexivity).
  rewrite Ea. change (F32.add F32.zero F32.zero) with F32.zero.
  unfold rectify. cbn [map].
  assert (Er : relu1 (nth j d F32.zero) = nth j d F32.zero)
    by (destruct Hv as [-> | ->]; reflexivity).
  rewrite Er. change (relu1 F32.zero) with F32.zero.
  unfold linear_value. cbn [inner_dims_agree forallb length unit_row repeat Nat.eqb andb negb].
  cbn [map linear_row combine fst snd]. unfold dot.
  cbn [combine fold_left fst snd].
  assert (E1 : F32.add F32.zero (F32.mul (nth j d F32.zero) F32.one) = nth j d F32.zero)
    by (destruct Hv as [-> | ->]; reflexivity).
  rewrite E1. change (F32.mul F32.zero F32.zero) with F32.zero.
  assert (E2 : F32.add (nth j d F32.zero) F32.zero = nth j d F32.zero) by exact Ea.
  rewrite !E2. reflexivity.
Qed.

(** On the zero input the probe returns 1.25 when element [j] of the
    mask says keep, and 0 when it says drop. *)
Lemma probe_model_output j (g : G) :
  (j < 32)%nat ->
  fst (forward_value (probe_model j) (zeros 1 10) g) =
  Ok [[dropped_one (nth j (mask32 g) false)]].
Proof.
  intros Hj. unfold forward_value.
  assert (E1 : affine (fc1 (probe_model j)) (zeros 1 10) = Ok [repeat F32.one 32])
    by reflexivity.
  rewrite E1.
  change (rectify [repeat F32.one 32]) with [repeat F32.one 32].
  change (Dropout.p (dropout (probe_model j))) with (2 # 10).
  change (Dropout.training (dropout (probe_model j))) with true.
  rewrite dropout_value_train.
  change (Nat.eqb (numel2 [repeat F32.one 32]) 0) with false. cbv iota.
  cbn [bernoulli_like].
  pose proof (bernoulli_row_length (1 - (2 # 10)) (repeat F32.one 32) g) as Lr.
  unfold mask32.
  destruct (bernoulli_row (1 - (2 # 10)) (repeat F32.one 32) g) as [row g1].
  cbn [fst snd] in *. rewrite repeat_length in Lr.
  unfold mul_noise. cbn [combine map fst snd].
  rewrite <- Lr at 1. rewrite dropped_ones.
  destruct (probe_tail (map dropped_one row) j) as (h2 & E2 & E3).
  - apply dropped_ones_two_valued.
  - rewrite length_map. exact Lr.
  - exact Hj.
  - unfold matrix, vector, F32.t in *. rewrite E2, E3. cbn [fst].
    rewrite nth_dropped_one by lia. reflexivity.
Qed.

Lemma lists_differ_at (l1 l2 : list bool) :
  length l1 = length l2 -> l1 <> l2 ->
  exists j, (j < length l1)%nat /\ nth j l1 false <> nth j l2 false.
Proof.
  revert l2. induction l1 as [|a l1 IH]; intros [|b l2] Hl Hne; try discriminate.
  - congruence.
  - destruct (Bool.bool_dec a b) as [->|Hab].
    + destruct (IH l2) as (j & Hj & Hd); [simpl in Hl; lia|congruence|].
      exists (S j). simpl. split; [lia|exact Hd].
    + exists 0%nat. simpl. split; [lia|exact Hab].
Qed.

(** Whenever two generator states give the dropout stage two different
    masks, some model of the class returns different outputs from them. *)
Lemma different_masks_different_outputs (g1 g2 : G) :
  mask32 g1 <> mask32 g2 ->
  exists m,
    well_formed m /\ in_training_mode m /\
    forall w1 w2, gen w1 = g1 -> gen w2 = g2 ->
      exists y1 y2,
        fst (forward m (zeros 1 10) w1) = Ok [[y1]] /\
        fst (forward m (zeros 1 10) w2) = Ok [[y2]] /\
        y1 <> y2.
Proof.
  intros Hne.
  assert (L1 : length (mask32 g1) = 32%nat)
    by (unfold mask32; rewrite bernoulli_row_length; apply repeat_length).
  assert (L2 : length (mask32 g2) = 32%nat)
    by (unfold mask32; rewrite bernoulli_row_length; apply repeat_length).
  destruct (lists_differ_at (mask32 g1) (mask32 g2)) as (j & Hj & Hd); [congruence|exact Hne|].
  rewrite L1 in Hj.
  exists (probe_model j).
  split; [apply probe_model_well_formed|]. split; [apply probe_model_in_training_mode|].
  intros w1 w2 E1 E2.
  destruct (forward_run (probe_model j) (zeros 1 10) w1) as (-> & _).
  destruct (forward_run (probe_model j) (zeros 1 10) w2) as (-> & _).
  rewrite E1, E2, !probe_model_output by exact Hj.
  eexists _, _. split; [reflexivity|]. split; [reflexivity|].
  destruct (nth j (mask32 g1) false), (nth j (mask32 g2) false); simpl;
    congruence || discriminate.
Qed.

(** With probability one the dropout stage zeroes everything and does
    not touch the generator. *)
Lemma forward_p1 m x w1 w2 :
  Qeq_bool (Dropout.p (dropout m)) 1 = true ->
  fst (forward m x w1) = fst (forward m x w2).
Proof.
  intros Hp.
  destruct (forward_run m x w1) as (-> & _), (forward_run m x w2) as (-> & _).
  unfold forward_value.
  destruct (affine (fc1 m) x) as [h1|e]; [|reflexivity].
  assert (Ed : forall g,
             dropout_value (rectify h1) (Dropout.p (dropout m))
               (Dropout.training (dropout m)) g =
             (fst (dropout_value (rectify h1) (Dropout.p (dropout m))
                     (Dropout.training (dropout m)) (gen w1)), g)).
  { intros g. unfold dropout_value. rewrite Hp.
    destruct (negb (valid_probability _)); [reflexivity|].
    destruct (Qeq_bool _ 0 || negb _ || Nat.eqb _ 0); reflexivity. }
  rewrite (Ed (gen w1)), (Ed (gen w2)).
  destruct (fst (dropout_value _ _ _ _)) as [d1|e]; [|reflexivity].
  destruct (affine (fc2 m) d1); reflexivity.
Qed.

Lemma well_formedb_spec m :
  has_shapeb 32 10 (Linear.weight (fc1 m)) && Nat.eqb (length (Linear.bias (fc1 m))) 32 &&
  has_shapeb 16 32 (Linear.weight (fc2 m)) && Nat.eqb (length (Linear.bias (fc2 m))) 16 &&
  has_shapeb 1 16 (Linear.weight (fc3 m)) && Nat.eqb (length (Linear.bias (fc3 m))) 1 = true ->
  Dropout.p (dropout m) = 2 # 10 ->
  well_formed m.
Proof.
  rewrite !andb_true_iff, !Nat.eqb_eq, !has_shapeb_spec.
  unfold well_formed. tauto.
Qed.

End Properties.

(* ===================================================================== *)
(** * Further properties of the model and of the script *)
(* ===================================================================== *)

Section Further.

Context {G : Type} `{RandomSource G}.

Implicit Types (w : @World G) (m : TunisianExportPredictor) (x : matrix).

(** ** Inputs of the wrong width *)

Lemma inner_dims_disagree c i o (x W : matrix) batch :
  has_shape (S batch) c x -> has_shape (S o) i W -> c <> i ->
  inner_dims_agree x W = false.
Proof.
  intros [Lx Fx] [LW FW] Hc.
  destruct x as [|r x]; [discriminate|]. destruct W as [|wr W]; [discriminate|].
  inversion Fx as [|? ? Hr _]; subst. inversion FW as [|? ? Hwr _]; subst.
  simpl. apply Nat.eqb_neq in Hc. rewrite Hc. reflexivity.
Qed.

(** X1.  A model of the class refuses a non-empty input whose rows do
    not have ten columns: the first layer raises the shape error of the
    matrix product, in either mode, before the dropout stage is reached,
    so the generator is left where it was. *)
Theorem forward_rejects_wrong_width m batch c x w :
  well_formed m -> has_shape (S batch) c x -> c <> 10%nat ->
  fst (forward m x w) =
    Raise (RuntimeError "mat1 and mat2 shapes cannot be multiplied") /\
  gen (snd (forward m x w)) = gen w.
Proof.
  intros (HW1 & _) Hx Hc.
  destruct (forward_run m x w) as (-> & -> & _).
  unfold forward_value, affine, linear_value.
  rewrite (inner_dims_disagree c 10 31 x _ batch Hx HW1 Hc). simpl. auto.
Qed.

(** ** The traced file *)

(** X2.  The module in the traced file is not tied to the batch size of
    the example input: when the script has run to its end, the file,
    loaded in any world that has it, accepts an input of any shape
    (batch, 10) and returns a tensor of shape (batch, 1). *)
Theorem traced_module_accepts_any_batch w batch x w2 :
  is_ok (fst (main w)) = true -> has_shape batch 10 x ->
  exists y,
    fst ((t ← jit_load traced_path ; ScriptModule_forward t x)
           (set_fs (fs (snd (main w))) w2)) = Ok y /\
    has_shape batch 1 y.
Proof.
  intros Hok Hx.
  destruct (main_cases w) as (m & w1 & x0 & _ & Hwf & _ & _ & _ & _ & Hcases).
  destruct (bool_decide (pth_path ∈ unwritable w)).
  { destruct Hcases as (E & _). rewrite E in Hok. discriminate. }
  destruct (bool_decide (traced_path ∈ unwritable w)).
  { destruct Hcases as (E & _). rewrite E in Hok. discriminate. }
  destruct Hcases as (_ & Efs & _).
  rewrite bind_run. unfold jit_load. cbn [fs set_fs].
  rewrite Efs, lookup_insert_eq. unfold ScriptModule_forward. cbn [graph].
  rewrite run_graph_forward. apply forward_returns; assumption.
Qed.

(** X3.  The values of the example input play no part in the export:
    tracing a model of the class on any two inputs of shape (1, 10), in
    any two worlds, returns the same module, whose graph holds the six
    operators of the forward pass with the parameters of the model. *)
Theorem trace_ignores_example_values m x1 x2 w1 w2 :
  well_formed m -> has_shape 1 10 x1 -> has_shape 1 10 x2 ->
  fst (jit_trace m x1 w1) = Ok (mkScriptModule (graph_of m)) /\
  fst (jit_trace m x2 w2) = fst (jit_trace m x1 w1).
Proof.
  intros Hm H1 H2.
  destruct (jit_trace_returns m x1 w1 Hm H1) as (w1' & ->).
  destruct (jit_trace_returns m x2 w2 Hm H2) as (w2' & ->).
  auto.
Qed.

(** ** The files of a run *)

(** X4.  Whether it ends or raises, a run of the script changes the file
    system at its two output paths at most: every other path holds after
    the run what it held before, and the set of paths that refuse writes
    is the same. *)
Theorem main_touches_only_its_two_files w path :
  path <> pth_path -> path <> traced_path ->
  fs (snd (main w)) !! path = fs w !! path /\
  unwritable (snd (main w)) = unwritable w.
Proof.
  intros H1 H2.
  destruct (main_cases w) as (m & w1 & x0 & _ & _ & _ & _ & _ & Hu & Hcases).
  split; [|exact Hu].
  destruct (bool_decide (pth_path ∈ unwritable w)).
  { destruct Hcases as (_ & -> & _). reflexivity. }
  destruct (bool_decide (traced_path ∈ unwritable w)).
  { destruct Hcases as (_ & -> & _). rewrite lookup_insert_ne by auto. reflexivity. }
  destruct Hcases as (_ & -> & _). rewrite !lookup_insert_ne by auto. reflexivity.
Qed.

(** X5.  The two files of a completed run describe the same network.
    The raw-parameter file holds six tensors under the keys fc1.weight,
    fc1.bias, fc2.weight, fc2.bias, fc3.weight, fc3.bias, in this order
    and of shapes (32,10), (32), (16,32), (16), (1,16), (1); the graph of
    the traced file applies these same tensors, with a rectification
    after the first two layers and the dropout operator, at probability
    0.2 and with its training argument set, after the first. *)
Theorem exports_hold_the_same_parameters w :
  is_ok (fst (main w)) = true ->
  exists W1 b1 W2 b2 W3 b3,
    fs (snd (main w)) !! pth_path =
      Some (PickledStateDict
              [ ("fc1.weight", Tensor2 W1); ("fc1.bias", Tensor1 b1);
                ("fc2.weight", Tensor2 W2); ("fc2.bias", Tensor1 b2);
                ("fc3.weight", Tensor2 W3); ("fc3.bias", Tensor1 b3) ]) /\
    fs (snd (main w)) !! traced_path =
      Some (ScriptModuleArchive
              [ aten_linear W1 b1; aten_relu; aten_dropout (2 # 10) true;
                aten_linear W2 b2; aten_relu; aten_linear W3 b3 ]) /\
    has_shape 32 10 W1 /\ length b1 = 32%nat /\
    has_shape 16 32 W2 /\ length b2 = 16%nat /\
    has_shape 1 16 W3 /\ length b3 = 1%nat.
Proof.
  intros Hok.
  destruct (main_cases w) as (m & w1 & x0 & _ & Hwf & Htr & _ & _ & _ & Hcases).
  destruct (bool_decide (pth_path ∈ unwritable w)).
  { destruct Hcases as (E & _). rewrite E in Hok. discriminate. }
  destruct (bool_decide (traced_path ∈ unwritable w)).
  { destruct Hcases as (E & _). rewrite E in Hok. discriminate. }
  destruct Hcases as (_ & Efs & _).
  destruct Hwf as (HW1 & Hb1 & HW2 & Hb2 & HW3 & Hb3 & Hp).
  destruct Htr as (_ & _ & _ & _ & _ & Hd).
  exists (Linear.weight (fc1 m)), (Linear.bias (fc1 m)),
         (Linear.weight (fc2 m)), (Linear.bias (fc2 m)),
         (Linear.weight (fc3 m)), (Linear.bias (fc3 m)).
  rewrite Efs, lookup_insert_eq, lookup_insert_ne, lookup_insert_eq by discriminate.
  unfold graph_of. rewrite Hp, Hd.
  repeat (split; [first [reflexivity|assumption]|]). assumption.
Qed.

(** ** Effects of the forward pass *)

Lemma recorded_off n w : tracer w = None -> recorded n w = w.
Proof. destruct w as [g t f u o]. simpl. intros ->. reflexivity. Qed.

(** X7.  The forward pass never writes a file and never prints, in
    either mode, under a trace or not, and whether it returns or raises.
    In evaluation mode it does not advance the generator either, so that
    when no trace is in progress it leaves the whole world as it found
    it. *)
Theorem forward_effects m x w :
  fs (snd (forward m x w)) = fs w /\
  unwritable (snd (forward m x w)) = unwritable w /\
  stdout (snd (forward m x w)) = stdout w /\
  gen (snd (forward (eval m) x w)) = gen w /\
  (tracer w = None -> snd (forward (eval m) x w) = w).
Proof.
  destruct (forward_run m x w) as (_ & _ & Hf & Hu & Ho).
  repeat (split; [assumption|]).
  split.
  { destruct (forward_run (eval m) x w) as (_ & -> & _).
    rewrite forward_value_eval. reflexivity. }
  intros Ht.
  unfold forward, Linear_forward, ReLU_forward, Dropout_forward.
  rewrite !bind_run, F_linear_run, recorded_off by exact Ht.
  destruct (linear_value x _ _) as [h1|e]; [|reflexivity].
  rewrite F_relu_run, recorded_off, bind_run, F_dropout_run, recorded_off by exact Ht.
  cbn [dropout eval train Dropout.train Dropout.training Dropout.p].
  rewrite dropout_value_eval. cbn [fst snd].
  assert (Eg : set_gen (gen w) w = w) by (destruct w; reflexivity). rewrite Eg.
  destruct (valid_probability _); [|reflexivity].
  rewrite !bind_run, F_linear_run, recorded_off by exact Ht.
  destruct (linear_value (rectify h1) _ _) as [h2|e]; [|reflexivity].
  rewrite F_relu_run, recorded_off, !bind_run, F_linear_run, recorded_off by exact Ht.
  destruct (linear_value (rectify h2) _ _); reflexivity.
Qed.

(** ** Finite outputs on bounded inputs *)

Lemma small_finite k (v : F32.t) : small k v -> F32.is_finite v = true.
Proof. destruct v; simpl; tauto. Qed.

Lemma small_finite_matrix k (y : matrix) :
  Forall (Forall (small k)) y ->
  Forall (Forall (fun v => F32.is_finite v = true)) y.
Proof.
  intros Hy. eapply Forall_impl; [exact Hy|]. intros row Hrow.
  eapply Forall_impl; [exact Hrow|]. intros v. apply small_finite.
Qed.

Lemma small_mono_matrix a b (y : matrix) :
  a <= b -> Forall (Forall (small a)) y -> Forall (Forall (small b)) y.
Proof.
  intros Hab Hy. eapply Forall_impl; [exact Hy|]. intros row Hrow.
  eapply Forall_impl; [exact Hrow|]. intros v. apply small_mono. exact Hab.
Qed.

Lemma of_Z_range_small (z : Z) (mb : positive) (eb : Z) (x : matrix) :
  F32.of_Z z = S754_finite false mb eb ->
  F32.of_Z (- z) = S754_finite true mb eb ->
  Forall (Forall (in_range (F32.of_Z (- z)) (F32.of_Z z))) x ->
  Forall (Forall (small eb)) x.
Proof.
  intros -> -> Hx. eapply Forall_impl; [exact Hx|]. intros row Hrow.
  eapply Forall_impl; [exact Hrow|]. intros v. apply in_range_small.
Qed.

(** The first layer and its rectification, on inputs below
    [2 ^ (a + 24)]. *)
Lemma first_layer_small m n x a :
  well_formed m -> default_initialized m -> has_shape n 10 x ->
  Forall (Forall (small a)) x -> -45 <= a <= 82 ->
  exists h1,
    affine (fc1 m) x = Ok h1 /\ has_shape n 32 (rectify h1) /\
    Forall (Forall (small (a + 22))) (rectify h1).
Proof.
  intros (HW1 & Hb1 & _) Hdi Hx Fx Ha.
  destruct (default_initialized_small m Hdi) as (SW1 & Sb1 & _).
  unfold affine.
  destruct (linear_value_shape n 32 10 _ _ _ Hx HW1 Hb1) as [E1 S1].
  eexists. split; [exact E1|]. split; [apply rectify_shape; exact S1|].
  apply rectify_small.
  replace (a + 22) with ((a + 20) + 2) by lia.
  apply (layer_small a (-25) (a + 20) 10); try assumption; try lia. apply Hx.
Qed.

(** The last two layers, on hidden activations below [2 ^ 29]. *)
Lemma last_layers_small m n d1 :
  well_formed m -> default_initialized m -> has_shape n 32 d1 ->
  Forall (Forall (small 5)) d1 ->
  exists h2 y,
    affine (fc2 m) d1 = Ok h2 /\ affine (fc3 m) (rectify h2) = Ok y /\
    has_shape n 1 y /\ Forall (Forall (small 104)) y.
Proof.
  intros (_ & _ & HW2 & Hb2 & HW3 & Hb3 & _) Hdi Sd Fd.
  destruct (default_initialized_small m Hdi) as (_ & _ & SW2 & Sb2 & SW3 & Sb3).
  unfold affine.
  destruct (linear_value_shape n 16 32 _ _ _ Sd HW2 Hb2) as [E2 S2].
  assert (F2 : Forall (Forall (small 70))
                 (map (linear_row (Linear.weight (fc2 m)) (Linear.bias (fc2 m))) d1)).
  { apply (layer_small 5 (-26) 68 32); try assumption; try lia. apply Sd. }
  apply rectify_shape in S2. apply rectify_small in F2.
  destruct (linear_value_shape n 1 16 _ _ _ S2 HW3 Hb3) as [E3 S3].
  eexists _, _. split; [exact E2|]. split; [exact E3|]. split; [exact S3|].
  apply (layer_small 70 (-25) 102 16); try assumption; try lia. apply S2.
Qed.

(** X8.  In evaluation mode a model of the class whose parameters lie
    within the initialisation bounds cannot overflow on moderate inputs:
    if every entry of an input of shape (batch, 10) is a binary32 value
    between -64 and 64, the output has shape (batch, 1) and every entry
    of it is finite, neither a NaN nor an infinity. *)
Theorem forward_eval_finite_on_bounded_input m batch x w :
  well_formed m -> default_initialized m -> has_shape batch 10 x ->
  Forall (Forall (in_range (F32.of_Z (-64)) (F32.of_Z 64))) x ->
  exists y,
    fst (forward (eval m) x w) = Ok y /\ has_shape batch 1 y /\
    Forall (Forall (fun v => F32.is_finite v = true)) y.
Proof.
  intros Hwf Hdi Hx Fx.
  apply (of_Z_range_small 64 8388608 (-17) x eq_refl eq_refl) in Fx.
  destruct (forward_run (eval m) x w) as (-> & _).
  rewrite forward_value_eval. cbn [fst].
  destruct (first_layer_small m batch x (-17) Hwf Hdi Hx Fx) as (h1 & E1 & S1 & F1); [lia|].
  rewrite E1.
  destruct Hwf as (HW1 & Hb1 & HW2 & Hb2 & HW3 & Hb3 & Hp).
  rewrite Hp. change (valid_probability (2 # 10)) with true. cbv iota.
  assert (Hwf : well_formed m) by (unfold well_formed; tauto).
  destruct (last_layers_small m batch (rectify h1) Hwf Hdi S1 F1)
    as (h2 & y & E2 & E3 & S3 & F3).
  rewrite E2, E3. exists y. split; [reflexivity|]. split; [exact S3|].
  apply (small_finite_matrix 104). exact F3.
Qed.

(** One element times the dropout noise at probability 0.2. *)
Lemma mul_noise1_small a (v : F32.t) (keep : bool) :
  small a v -> -150 <= a -> a + 2 <= 104 ->
  small (a + 2) (F32.mul v (noise1 (2 # 10) keep)).
Proof.
  intros Hv Hlo Hhi.
  replace (a + 2) with (a + (-23) + 25) by lia.
  apply mul_small; try assumption; try lia.
  destruct keep; vm_compute; [split; discriminate|exact I].
Qed.

Lemma mul_noise_small a (x : matrix) (keep : list (list bool)) :
  Forall (Forall (small a)) x -> -150 <= a -> a + 2 <= 104 ->
  Forall (Forall (small (a + 2))) (mul_noise (2 # 10) x keep).
Proof.
  intros Hx Hlo Hhi. unfold mul_noise. apply Forall_map.
  revert keep. induction Hx as [|r x Hr Hx IH]; intros keep; [constructor|].
  destruct keep as [|k keep]; [constructor|]. simpl. constructor; [|apply IH].
  apply Forall_map. clear IH Hx. revert k.
  induction Hr as [|v r Hv Hr IH]; intros k; [constructor|].
  destruct k as [|b k]; [constructor|]. simpl. constructor; [|apply IH].
  apply mul_noise1_small; assumption.
Qed.

Lemma dropout_value_small a (x : matrix) (t : bool) (g : G) :
  Forall (Forall (small a)) x -> -150 <= a -> a + 2 <= 104 ->
  exists y g',
    dropout_value x (2 # 10) t g = (Ok y, g') /\
    Forall (Forall (small (a + 2))) y /\
    forall r c, has_shape r c x -> has_shape r c y.
Proof.
  intros Hx Hlo Hhi.
  destruct t.
  - rewrite dropout_value_train.
    destruct (Nat.eqb (numel2 x) 0).
    + exists x, g. split; [reflexivity|]. split; [|auto].
      apply (small_mono_matrix a); [lia|exact Hx].
    + eexists _, _. split; [reflexivity|]. split.
      * apply mul_noise_small; assumption.
      * intros r c Hs. apply mul_noise_shape. exact Hs.
  - rewrite dropout_value_eval. change (valid_probability (2 # 10)) with true.
    exists x, g. split; [reflexivity|]. split; [|auto].
    apply (small_mono_matrix a); [lia|exact Hx].
Qed.

(** X9.  The same holds in training mode on a smaller range, whatever
    mask the dropout stage draws: if every entry of an input of shape
    (batch, 10) is a binary32 value between -16 and 16, the forward pass
    of a model of the class with parameters within the initialisation
    bounds, in either mode and from any generator state, returns a tensor
    of shape (batch, 1) whose entries are all finite. *)
Theorem forward_finite_on_bounded_input m batch x w :
  well_formed m -> default_initialized m -> has_shape batch 10 x ->
  Forall (Forall (in_range (F32.of_Z (-16)) (F32.of_Z 16))) x ->
  exists y,
    fst (forward m x w) = Ok y /\ has_shape batch 1 y /\
    Forall (Forall (fun v => F32.is_finite v = true)) y.
Proof.
  intros Hwf Hdi Hx Fx.
  apply (of_Z_range_small 16 8388608 (-19) x eq_refl eq_refl) in Fx.
  destruct (forward_run m x w) as (-> & _). unfold forward_value.
  destruct (first_layer_small m batch x (-19) Hwf Hdi Hx Fx) as (h1 & E1 & S1 & F1); [lia|].
  rewrite E1.
  assert (Hp : Dropout.p (dropout m) = 2 # 10) by apply Hwf. rewrite Hp.
  destruct (dropout_value_small 3 (rectify h1) (Dropout.training (dropout m)) (gen w) F1)
    as (d1 & g' & Ed & Fd & Sd); [lia|lia|].
  rewrite Ed. apply Sd in S1.
  destruct (last_layers_small m batch d1 Hwf Hdi S1 Fd) as (h2 & y & E2 & E3 & S3 & F3).
  rewrite E2, E3. exists y. split; [reflexivity|]. split; [exact S3|].
  apply (small_finite_matrix 104). exact F3.
Qed.

(** ** Effects of the constructor *)

(** X10.  Constructing the model never raises and is pure allocation but
    for the random draws: the files, the write permissions, standard
    output and the tracer state are as before, and the module returned
    has the shapes of the class, every flag set to training and every
    parameter within the initialisation bound of its layer. *)
Theorem construction_touches_only_the_generator w :
  exists m w',
    __init__ w = (Ok m, w') /\
    tracer w' = tracer w /\ fs w' = fs w /\
    unwritable w' = unwritable w /\ stdout w' = stdout w /\
    well_formed m /\ in_training_mode m /\ default_initialized m.
Proof.
  destruct (init_spec w) as (m & w' & E & Hwf & Htr & Hdi & (Ht & Hf & Hu & Ho)).
  exists m, w'. tauto.
Qed.

End Further.

(* ===================================================================== *)
(** * Concrete runs *)
(* ===================================================================== *)

Lemma counter_model_constructed :
  fst (__init__ (counter_world 0 ∅)) = Ok counter_model.
Proof. vm_compute. reflexivity. Qed.

Lemma counter_model_well_formed : well_formed counter_model.
Proof. apply well_formedb_spec; vm_compute; reflexivity. Qed.

Lemma counter_model_in_training_mode : in_training_mode counter_model.
Proof. repeat split. Qed.

Lemma counter_model_default_initialized : default_initialized counter_model.
Proof.
  destruct (init_spec (counter_world 0 ∅)) as (m & w1 & E & _ & _ & Hdi & _).
  pose proof counter_model_constructed as Ec. rewrite E in Ec.
  injection Ec as ->. exact Hdi.
Qed.

(** A model in training mode whose dropout probability is one, not
    zero, returns the same output in every world, for any generator:
    determinism does not require the probability to be zero.  This
    refutes the last clause of C7 as stated. *)
Lemma dropout_probability_one_is_deterministic :
  in_training_mode counter_model_p1 /\
  Qeq_bool (Dropout.p (dropout counter_model_p1)) 0 = false /\
  forall (G : Type) (RS : RandomSource G) x (w1 w2 : @World G),
    fst (forward counter_model_p1 x w1) = fst (forward counter_model_p1 x w2).
Proof.
  split; [repeat split|]. split; [reflexivity|].
  intros G RS x w1 w2. apply forward_p1. reflexivity.
Qed.

(** C7, as amended.  In training mode the forward pass is not a
    function of the weights and the input.  The dropout stage of a model
    of the class keeps each element with probability 1 - 0.2 and
    multiplies it by 1/(1 - 0.2) = 1.25, or multiplies it by zero.  So
    there are a model, an input and a generator state from which two
    calls made one after the other return tensors that are not close;
    and for any generator at all, whenever two generator states give the
    stage two different masks, some model of the class returns different
    outputs from them on the same input.  The forward pass is
    deterministic in training mode when the probability is zero, and
    also when it is one. *)
Theorem training_forward_is_not_deterministic :
  noise1 (2 # 10) true = S754_finite false 10485760 (-23) /\
  noise1 (2 # 10) false = F32.zero /\
  (forall (G : Type) (RS : RandomSource G) h (g : G),
     dropout_value h (2 # 10) true g =
     if Nat.eqb (numel2 h) 0 then (Ok h, g)
     else (Ok (mul_noise (2 # 10) h (fst (bernoulli_like (1 - (2 # 10)) h g))),
           snd (bernoulli_like (1 - (2 # 10)) h g))) /\
  (exists m x (w : @World nat) y1 y2,
     well_formed m /\ in_training_mode m /\ has_shape 1 10 x /\
     Dropout.p (dropout m) = 2 # 10 /\
     fst (forward m x w) = Ok y1 /\
     fst (forward m x (snd (forward m x w))) = Ok y2 /\
     y1 <> y2 /\ allclose y1 y2 = false) /\
  (forall (G : Type) (RS : RandomSource G) (g1 g2 : G),
     mask32 g1 <> mask32 g2 ->
     exists m,
       well_formed m /\ in_training_mode m /\
       forall w1 w2 : @World G, gen w1 = g1 -> gen w2 = g2 ->
         exists y1 y2,
           fst (forward m (zeros 1 10) w1) = Ok [[y1]] /\
           fst (forward m (zeros 1 10) w2) = Ok [[y2]] /\
           y1 <> y2) /\
  (forall (G : Type) (RS : RandomSource G) m x (w1 w2 : @World G),
     Qeq_bool (Dropout.p (dropout m)) 0 = true ->
     fst (forward m x w1) = fst (forward m x w2)) /\
  (forall (G : Type) (RS : RandomSource G) m x (w1 w2 : @World G),
     Qeq_bool (Dropout.p (dropout m)) 1 = true ->
     fst (forward m x w1) = fst (forward m x w2)).
Proof.
  split; [vm_compute; reflexivity|]. split; [vm_compute; reflexivity|].
  split; [intros G RS h g; apply dropout_value_train|].
  split; [|split; [|split]].
  - exists counter_model, (zeros 1 10), (counter_world 4 ∅).
    eexists _, _.
    split; [exact counter_model_well_formed|].
    split; [exact counter_model_in_training_mode|].
    split; [apply has_shapeb_spec; reflexivity|].
    split; [reflexivity|].
    split; [vm_compute; reflexivity|].
    split; [vm_compute; reflexivity|].
    split; [discriminate|vm_compute; reflexivity].
  - intros G RS g1 g2 Hne. apply different_masks_different_outputs. exact Hne.
  - intros G RS m x w1 w2 Hp. apply forward_p0. exact Hp.
  - intros G RS m x w1 w2 Hp. apply forward_p1. exact Hp.
Qed.

(** The script run from the counter generator at state 0, with every path
    writable: the traced file, loaded and run on the example input, and
    the evaluation-mode forward pass of the model on the same input return
    tensors that are not close.  This refutes C1 as stated. *)
Lemma traced_output_differs_from_eval_output :
  exists l w1 m x y y',
    main (counter_world 0 ∅) = (Ok l, w1) /\
    model l = Some m /\ example_input l = Some x /\
    fst ((t ← jit_load traced_path ; ScriptModule_forward t x) w1) = Ok y /\
    fst (forward (eval m) x w1) = Ok y' /\
    allclose y y' = false.
Proof.
  eexists _, _, _, _, _, _.
  split; [vm_compute; reflexivity|].
  split; [reflexivity|]. split; [reflexivity|].
  split; [vm_compute; reflexivity|].
  split; [vm_compute; reflexivity|].
  vm_compute. reflexivity.
Qed.

(** ** The theorems at concrete inputs *)

Lemma parameter_count_is_897_witness :
  (pth_path ∉ unwritable (counter_world 0 ∅)) /\
  (traced_path ∉ unwritable (counter_world 0 ∅)) /\
  is_ok (fst (main (counter_world 0 ∅))) = true /\
  stdout (snd (main (counter_world 0 ∅))) =
    stdout (counter_world 0 ∅) ++ [done_line; "  - Paramètres: 897"].
Proof.
  assert (Hp : pth_path ∉ unwritable (counter_world 0 ∅))
    by (simpl; apply not_elem_of_empty).
  assert (Ht : traced_path ∉ unwritable (counter_world 0 ∅))
    by (simpl; apply not_elem_of_empty).
  split; [exact Hp|]. split; [exact Ht|].
  apply (proj2 (proj2 (proj2 (parameter_count_is_897 (counter_world 0 ∅)))) Hp Ht).
Defined.

Lemma forward_eval_is_layer_composition_witness :
  valid_probability (Dropout.p (dropout counter_model)) = true /\
  (fst (forward (eval counter_model) (zeros 1 10) (counter_world 0 ∅)) =
     spec_forward_eval counter_model (zeros 1 10) /\
   gen (snd (forward (eval counter_model) (zeros 1 10) (counter_world 0 ∅))) =
     gen (counter_world 0 ∅) /\
   (forall h w',
      fst (Dropout_forward (dropout (eval counter_model)) h w') = Ok h /\
      gen (snd (Dropout_forward (dropout (eval counter_model)) h w')) = gen w')).
Proof.
  split; [reflexivity|].
  apply (forward_eval_is_layer_composition counter_model (zeros 1 10) (counter_world 0 ∅)).
  reflexivity.
Defined.

Lemma forward_shape_witness :
  well_formed counter_model /\ (1 <= 3)%nat /\ has_shape 3 10 (zeros 3 10) /\
  exists y, fst (forward counter_model (zeros 3 10) (counter_world 7 ∅)) = Ok y /\
            has_shape 3 1 y.
Proof.
  assert (Hx : has_shape 3 10 (zeros 3 10)) by (apply has_shapeb_spec; reflexivity).
  split; [exact counter_model_well_formed|].
  split; [lia|]. split; [exact Hx|].
  apply (forward_shape counter_model 3 (zeros 3 10) (counter_world 7 ∅)).
  - exact counter_model_well_formed.
  - lia.
  - exact Hx.
Defined.

Lemma state_dict_round_trip_witness :
  well_formed counter_model /\ well_formed (eval counter_model) /\
  ("copy.pth" ∉ unwritable (counter_world 0 ∅)) /\
  exists loaded w',
    (torch_save (state_dict counter_model) "copy.pth" ;;
     sd ← torch_load "copy.pth" ;
     load_state_dict (eval counter_model) sd) (counter_world 0 ∅) = (Ok loaded, w') /\
    well_formed loaded /\
    state_dict loaded = state_dict counter_model /\
    forall mode x w'',
      forward (train mode loaded) x w'' = forward (train mode counter_model) x w''.
Proof.
  assert (Hf : well_formed (eval counter_model))
    by (apply well_formed_train; exact counter_model_well_formed).
  assert (Hp : "copy.pth" ∉ unwritable (counter_world 0 ∅))
    by (simpl; apply not_elem_of_empty).
  split; [exact counter_model_well_formed|]. split; [exact Hf|]. split; [exact Hp|].
  apply (state_dict_round_trip counter_model (eval counter_model) "copy.pth"
           (counter_world 0 ∅) counter_model_well_formed Hf Hp).
Defined.

Lemma traced_graph_runs_training_mode_forward_witness :
  is_ok (fst (main (counter_world 0 ∅))) = true /\
  exists l m x0,
    fst (main (counter_world 0 ∅)) = Ok l /\ model l = Some m /\
    example_input l = Some x0 /\ has_shape 1 10 x0 /\ in_training_mode m /\
    forall x w2,
      (t ← jit_load traced_path ; ScriptModule_forward t x)
        (set_fs (fs (snd (main (counter_world 0 ∅)))) w2) =
      forward m x (set_fs (fs (snd (main (counter_world 0 ∅)))) w2).
Proof.
  assert (Hok : is_ok (fst (main (counter_world 0 ∅))) = true) by (vm_compute; reflexivity).
  split; [exact Hok|].
  apply (traced_graph_runs_training_mode_forward (counter_world 0 ∅) Hok).
Defined.

Lemma training_forward_is_not_deterministic_witness :
  mask32 0%nat <> mask32 4%nat /\
  Qeq_bool (Dropout.p (dropout counter_model_p1)) 1 = true /\
  (exists m,
     well_formed m /\ in_training_mode m /\
     forall w1 w2 : @World nat, gen w1 = 0%nat -> gen w2 = 4%nat ->
       exists y1 y2,
         fst (forward m (zeros 1 10) w1) = Ok [[y1]] /\
         fst (forward m (zeros 1 10) w2) = Ok [[y2]] /\
         y1 <> y2) /\
  fst (forward counter_model_p1 (zeros 1 10) (counter_world 0 ∅)) =
  fst (forward counter_model_p1 (zeros 1 10) (counter_world 4 ∅)).
Proof.
  assert (Hm : mask32 0%nat <> mask32 4%nat) by (vm_compute; discriminate).
  split; [exact Hm|]. split; [reflexivity|].
  destruct training_forward_is_not_deterministic as (_ & _ & _ & _ & Hmask & _ & Hp1).
  split.
  - apply (Hmask nat _ 0%nat 4%nat Hm).
  - apply (Hp1 nat _ counter_model_p1). reflexivity.
Defined.

Lemma forward_zero_input_is_finite_witness :
  well_formed counter_model /\ default_initialized counter_model /\
  exists y,
    fst (forward (eval counter_model) (zeros 1 10) (counter_world 0 ∅)) = Ok [[y]] /\
    has_shape 1 1 [[y]] /\ F32.is_finite y = true.
Proof.
  split; [exact counter_model_well_formed|].
  split; [exact counter_model_default_initialized|].
  apply (forward_zero_input_is_finite counter_model (counter_world 0 ∅)
           counter_model_well_formed counter_model_default_initialized).
Defined.

(** ** The further properties at concrete inputs *)

(** A batch of two rows of ones. *)
Definition ones_2_10 : matrix := repeat (repeat F32.one 10) 2.

Lemma ones_2_10_shape : has_shape 2 10 ones_2_10.
Proof. apply has_shapeb_spec. reflexivity. Qed.

Lemma ones_2_10_in_range (z : Z) :
  in_range (F32.of_Z (- z)) (F32.of_Z z) F32.one ->
  Forall (Forall (in_range (F32.of_Z (- z)) (F32.of_Z z))) ones_2_10.
Proof. intros Hz. apply Forall_repeat, Forall_repeat. exact Hz. Qed.

Lemma counter_main_is_ok : is_ok (fst (main (counter_world 0 ∅))) = true.
Proof. vm_compute. reflexivity. Qed.

Lemma forward_rejects_wrong_width_witness :
  well_formed counter_model /\ has_shape 2 7 (zeros 2 7) /\ 7%nat <> 10%nat /\
  fst (forward counter_model (zeros 2 7) (counter_world 0 ∅)) =
    Raise (RuntimeError "mat1 and mat2 shapes cannot be multiplied") /\
  gen (snd (forward counter_model (zeros 2 7) (counter_world 0 ∅))) =
    gen (counter_world 0 ∅).
Proof.
  assert (Hx : has_shape 2 7 (zeros 2 7)) by (apply has_shapeb_spec; reflexivity).
  assert (Hc : 7%nat <> 10%nat) by lia.
  split; [exact counter_model_well_formed|]. split; [exact Hx|]. split; [exact Hc|].
  apply (forward_rejects_wrong_width counter_model 1 7 (zeros 2 7) (counter_world 0 ∅)
           counter_model_well_formed Hx Hc).
Defined.

Lemma traced_module_accepts_any_batch_witness :
  is_ok (fst (main (counter_world 0 ∅))) = true /\ has_shape 2 10 ones_2_10 /\
  exists y,
    fst ((t ← jit_load traced_path ; ScriptModule_forward t ones_2_10)
           (set_fs (fs (snd (main (counter_world 0 ∅)))) (counter_world 9 ∅))) = Ok y /\
    has_shape 2 1 y.
Proof.
  split; [exact counter_main_is_ok|]. split; [exact ones_2_10_shape|].
  apply (traced_module_accepts_any_batch (counter_world 0 ∅) 2 ones_2_10
           (counter_world 9 ∅) counter_main_is_ok ones_2_10_shape).
Defined.

Lemma trace_ignores_example_values_witness :
  well_formed counter_model /\ has_shape 1 10 (zeros 1 10) /\
  has_shape 1 10 (repeat (repeat F32.one 10) 1) /\
  fst (jit_trace counter_model (zeros 1 10) (counter_world 0 ∅)) =
    Ok (mkScriptModule (graph_of counter_model)) /\
  fst (jit_trace counter_model (repeat (repeat F32.one 10) 1) (counter_world 5 ∅)) =
    fst (jit_trace counter_model (zeros 1 10) (counter_world 0 ∅)).
Proof.
  assert (H1 : has_shape 1 10 (zeros 1 10)) by (apply has_shapeb_spec; reflexivity).
  assert (H2 : has_shape 1 10 (repeat (repeat F32.one 10) 1))
    by (apply has_shapeb_spec; reflexivity).
  split; [exact counter_model_well_formed|]. split; [exact H1|]. split; [exact H2|].
  apply (trace_ignores_example_values counter_model (zeros 1 10)
           (repeat (repeat F32.one 10) 1) (counter_world 0 ∅) (counter_world 5 ∅)
           counter_model_well_formed H1 H2).
Defined.

Lemma main_touches_only_its_two_files_witness :
  "notes.txt" <> pth_path /\ "notes.txt" <> traced_path /\
  fs (snd (main (counter_world 0 ∅))) !! "notes.txt" =
    fs (counter_world 0 ∅) !! "notes.txt" /\
  unwritable (snd (main (counter_world 0 ∅))) = unwritable (counter_world 0 ∅).
Proof.
  assert (H1 : "notes.txt" <> pth_path) by discriminate.
  assert (H2 : "notes.txt" <> traced_path) by discriminate.
  split; [exact H1|]. split; [exact H2|].
  apply (main_touches_only_its_two_files (counter_world 0 ∅) "notes.txt" H1 H2).
Defined.

Lemma exports_hold_the_same_parameters_witness :
  is_ok (fst (main (counter_world 0 ∅))) = true /\
  exists W1 b1 W2 b2 W3 b3,
    fs (snd (main (counter_world 0 ∅))) !! pth_path =
      Some (PickledStateDict
              [ ("fc1.weight", Tensor2 W1); ("fc1.bias", Tensor1 b1);
                ("fc2.weight", Tensor2 W2); ("fc2.bias", Tensor1 b2);
                ("fc3.weight", Tensor2 W3); ("fc3.bias", Tensor1 b3) ]) /\
    fs (snd (main (counter_world 0 ∅))) !! traced_path =
      Some (ScriptModuleArchive
              [ aten_linear W1 b1; aten_relu; aten_dropout (2 # 10) true;
                aten_linear W2 b2; aten_relu; aten_linear W3 b3 ]) /\
    has_shape 32 10 W1 /\ length b1 = 32%nat /\
    has_shape 16 32 W2 /\ length b2 = 16%nat /\
    has_shape 1 16 W3 /\ length b3 = 1%nat.
Proof.
  split; [exact counter_main_is_ok|].
  apply (exports_hold_the_same_parameters (counter_world 0 ∅) counter_main_is_ok).
Defined.

Lemma forward_effects_witness :
  tracer (counter_world 0 ∅) = None /\
  snd (forward (eval counter_model) ones_2_10 (counter_world 0 ∅)) = counter_world 0 ∅.
Proof.
  split; [reflexivity|].
  apply (proj2 (proj2 (proj2 (proj2
           (forward_effects counter_model ones_2_10 (counter_world 0 ∅)))))).
  reflexivity.
Defined.

Lemma forward_eval_finite_on_bounded_input_witness :
  well_formed counter_model /\ default_initialized counter_model /\
  has_shape 2 10 ones_2_10 /\
  Forall (Forall (in_range (F32.of_Z (-64)) (F32.of_Z 64))) ones_2_10 /\
  exists y,
    fst (forward (eval counter_model) ones_2_10 (counter_world 0 ∅)) = Ok y /\
    has_shape 2 1 y /\ Forall (Forall (fun v => F32.is_finite v = true)) y.
Proof.
  assert (Hr : Forall (Forall (in_range (F32.of_Z (-64)) (F32.of_Z 64))) ones_2_10).
  { apply (ones_2_10_in_range 64). repeat split; reflexivity. }
  split; [exact counter_model_well_formed|].
  split; [exact counter_model_default_initialized|].
  split; [exact ones_2_10_shape|]. split; [exact Hr|].
  apply (forward_eval_finite_on_bounded_input counter_model 2 ones_2_10 (counter_world 0 ∅)
           counter_model_well_formed counter_model_default_initialized
           ones_2_10_shape Hr).
Defined.

Lemma forward_finite_on_bounded_input_witness :
  well_formed counter_model /\ default_initialized counter_model /\
  has_shape 2 10 ones_2_10 /\
  Forall (Forall (in_range (F32.of_Z (-16)) (F32.of_Z 16))) ones_2_10 /\
  exists y,
    fst (forward counter_model ones_2_10 (counter_world 4 ∅)) = Ok y /\
    has_shape 2 1 y /\ Forall (Forall (fun v => F32.is_finite v = true)) y.
Proof.
  assert (Hr : Forall (Forall (in_range (F32.of_Z (-16)) (F32.of_Z 16))) ones_2_10).
  { apply (ones_2_10_in_range 16). repeat split; reflexivity. }
  split; [exact counter_model_well_formed|].
  split; [exact counter_model_default_initialized|].
  split; [exact ones_2_10_shape|]. split; [exact Hr|].
  apply (forward_finite_on_bounded_input counter_model 2 ones_2_10 (counter_world 4 ∅)
           counter_model_well_formed counter_model_default_initialized
           ones_2_10_shape Hr).
Defined.
